(** * gazetteer-gnd-mapping: the importer and the fuzzy matcher

  A shallow embedding of [src/import.py] (DNB ingestion into SQLite) and
  [src/fuzzy.py] (Jaro-Winkler matching over the imported tables), with
  the properties of the two scripts proved over it.

  Conventions of the embedding:
  - a Python [str] is a [string]; indices and lengths are in [Z], so that
    [str.find] can answer [-1] as it does in Python;
  - a Python [float] (threshold, [jarow] column) is an exact rational [Q];
    a decimal literal in a query is rounded to the nearest binary64
    number where SQLite reads it;
  - an SQLite connection is the current table contents together with the
    history of the snapshots written by [con.commit()];
  - the logger is the list of the calls made on it, level and message. *)

From Stdlib Require Import ZArith QArith Qround Qabs Qpower Lia Lra Lqa List Ascii
  String.
From stdpp Require Import gmap strings pretty.
Import ListNotations.

Local Open Scope string_scope.
Local Open Scope Z_scope.
Local Open Scope list_scope.

(** ** Python string operations used by the importer *)

Module PyStr.

(** [len(s)] *)
Definition len (s : string) : Z := Z.of_nat (String.length s).

Fixpoint find_from (c : ascii) (s : string) (i : Z) : Z :=
  match s with
  | EmptyString => -1
  | String a s' => if Ascii.eqb a c then i else find_from c s' (i + 1)
  end.

(** [s.find(c)] for a needle of one character: the lowest index of [c]
    in [s], or [-1]. *)
Definition find (c : ascii) (s : string) : Z := find_from c s 0.

Fixpoint drop (n : nat) (s : string) : string :=
  match n, s with
  | O, _ => s
  | S _, EmptyString => EmptyString
  | S n', String _ s' => drop n' s'
  end.

Fixpoint take (n : nat) (s : string) : string :=
  match n, s with
  | O, _ => EmptyString
  | S _, EmptyString => EmptyString
  | S n', String a s' => String a (take n' s')
  end.

(** How Python brings a slice bound into [0 .. len]. *)
Definition clamp (l k : Z) : Z :=
  if k <? 0 then Z.max 0 (k + l) else Z.min k l.

(** [s[lo:hi]]; [hi = None] is the open slice [s[lo:]]. *)
Definition slice (s : string) (lo : Z) (hi : option Z) : string :=
  let l := len s in
  let a := clamp l lo in
  let b := match hi with Some h => clamp l h | None => l end in
  take (Z.to_nat (b - a)) (drop (Z.to_nat a) s).

(** [s.startswith(p)] *)
Definition startswith (s p : string) : bool := String.prefix p s.

(** [s.endswith(p)] *)
Definition endswith (s p : string) : bool :=
  (len p <=? len s) && String.eqb (drop (Z.to_nat (len s - len p)) s) p.

(** Python truthiness of an optional string: [None] and [''] are false. *)
Definition truthy (o : option string) : bool :=
  match o with
  | None => false
  | Some s => negb (String.eqb s "")
  end.

(** The character [c] occurs in [s]. *)
Definition occurs (c : ascii) (s : string) : Prop :=
  In c (list_ascii_of_string s).

End PyStr.

(** ** The SQLite store

    [schema.sql] is not part of the sources; the tables are the columns
    that the statements of [import.py], [fuzzy.py] and [export.py] name. *)

Module Sqlite.

Record dnb_meta_row := {
  dm_id : Z;
  dm_dnb_id : string;
  dm_pref_name : option string;
  dm_owl_geonames : option string;
  dm_owl_gnd : option string;
  dm_owl_loc : option string;
  dm_owl_viaf : option string;
  dm_owl_wikidata : option string }.

Record dnb_name_row := {
  dn_id : Z;
  dn_dnb_meta_id : option Z;
  dn_var_name : string }.

Record dnb_old_auth_row := {
  da_dnb_meta_id : option Z;
  da_number : string;
  da_prefix : option string;
  da_gnd_id : option string }.

Record gaz_meta_row := {
  gm_id : Z;
  gm_gaz_id : string;
  gm_pref_title : option string }.

Record gaz_name_row := {
  gn_id : Z;
  gn_gaz_id : string;
  gn_title : option string }.

(** A row of [fuzzy_meta] or [fuzzy_name]: the two ids and [jarow]. *)
Record fuzzy_row := {
  fz_dnb : Z;
  fz_gaz : Z;
  fz_jarow : Q }.

Record db := {
  dnb_meta : list dnb_meta_row;
  dnb_name : list dnb_name_row;
  dnb_old_auth : list dnb_old_auth_row;
  gaz_meta : list gaz_meta_row;
  gaz_name : list gaz_name_row;
  fuzzy_meta : list fuzzy_row;
  fuzzy_name : list fuzzy_row }.

Definition empty_db : db :=
  {| dnb_meta := []; dnb_name := []; dnb_old_auth := []; gaz_meta := [];
     gaz_name := []; fuzzy_meta := []; fuzzy_name := [] |}.

Definition set_dnb_meta (rows : list dnb_meta_row) (d : db) : db :=
  {| dnb_meta := rows; dnb_name := dnb_name d; dnb_old_auth := dnb_old_auth d;
     gaz_meta := gaz_meta d; gaz_name := gaz_name d;
     fuzzy_meta := fuzzy_meta d; fuzzy_name := fuzzy_name d |}.

Definition set_dnb_name (rows : list dnb_name_row) (d : db) : db :=
  {| dnb_meta := dnb_meta d; dnb_name := rows; dnb_old_auth := dnb_old_auth d;
     gaz_meta := gaz_meta d; gaz_name := gaz_name d;
     fuzzy_meta := fuzzy_meta d; fuzzy_name := fuzzy_name d |}.

Definition set_dnb_old_auth (rows : list dnb_old_auth_row) (d : db) : db :=
  {| dnb_meta := dnb_meta d; dnb_name := dnb_name d; dnb_old_auth := rows;
     gaz_meta := gaz_meta d; gaz_name := gaz_name d;
     fuzzy_meta := fuzzy_meta d; fuzzy_name := fuzzy_name d |}.

Definition set_fuzzy_meta (rows : list fuzzy_row) (d : db) : db :=
  {| dnb_meta := dnb_meta d; dnb_name := dnb_name d;
     dnb_old_auth := dnb_old_auth d;
     gaz_meta := gaz_meta d; gaz_name := gaz_name d;
     fuzzy_meta := rows; fuzzy_name := fuzzy_name d |}.

Definition set_fuzzy_name (rows : list fuzzy_row) (d : db) : db :=
  {| dnb_meta := dnb_meta d; dnb_name := dnb_name d;
     dnb_old_auth := dnb_old_auth d;
     gaz_meta := gaz_meta d; gaz_name := gaz_name d;
     fuzzy_meta := fuzzy_meta d; fuzzy_name := rows |}.

(** The columns of a child row that the importer supplies. *)
Definition name_cols (r : dnb_name_row) : option Z * string :=
  (dn_dnb_meta_id r, dn_var_name r).

Definition old_auth_cols (r : dnb_old_auth_row)
  : option Z * string * option string * option string :=
  (da_dnb_meta_id r, da_number r, da_prefix r, da_gnd_id r).

(** A connection: what the statements executed so far have made of the
    tables, and the snapshots that [con.commit()] has written, the latest
    first.  What survives an interruption is the latest snapshot. *)
Record con := {
  store : db;
  commits : list db }.

Definition connect (d : db) : con := {| store := d; commits := [] |}.

(** [cur.execute(...)]/[cur.executemany(...)] of a statement that cannot
    fail, given as its effect on the tables. *)
Definition execute (f : db -> db) (c : con) : con :=
  {| store := f (store c); commits := commits c |}.

(** [con.commit()] *)
Definition commit (c : con) : con :=
  {| store := store c; commits := store c :: commits c |}.

(** The rowid SQLite gives to the next row of a table whose ids are [ids]. *)
Definition next_id (ids : list Z) : Z := 1 + fold_right Z.max 0 ids.

(** [sqlite3.IntegrityError], the one exception the importer handles. *)
Inductive exn := IntegrityError.

Inductive outcome (A : Type) :=
| Ok (a : A)
| Raise (e : exn).
Arguments Ok {A} a.
Arguments Raise {A} e.

(** The five PRAGMA statements change no table; the commit is all that
    the store sees of [db_pragma]. *)
Definition db_pragma (c : con) : con := commit c.

End Sqlite.

(** ** import.py *)

Module Importer.
Import Sqlite.

Inductive level := DEBUG | INFO | WARNING | ERROR.

(** One call on the logger. *)
Definition log_record : Type := level * string.

(** The double quote character, for the messages that quote a path. *)
Definition dquote : string := String (ascii_of_nat 34) EmptyString.

(** *** db_import_dnb *)

(** Modelled from the spec: the schema file [schema.sql] is missing; the
    spec makes [dnb_id] unique in [dnb_meta] and has the store raise an
    integrity violation on a duplicate, which is the [IntegrityError]
    that [json_import_dnb] catches.  The [id] column is the rowid. *)
Definition insert_dnb_meta (dnb_id : string)
    (pref_name owl_geonames owl_gnd owl_loc owl_viaf owl_wikidata : option string)
    (d : db) : outcome db :=
  if existsb (fun r => String.eqb (dm_dnb_id r) dnb_id) (dnb_meta d)
  then Raise IntegrityError
  else Ok (set_dnb_meta
             (dnb_meta d ++
              [{| dm_id := next_id (map dm_id (dnb_meta d));
                  dm_dnb_id := dnb_id;
                  dm_pref_name := pref_name;
                  dm_owl_geonames := owl_geonames;
                  dm_owl_gnd := owl_gnd;
                  dm_owl_loc := owl_loc;
                  dm_owl_viaf := owl_viaf;
                  dm_owl_wikidata := owl_wikidata |}]) d).

(** [(SELECT id FROM dnb_meta WHERE dnb_id = ?)]; [None] is SQL NULL. *)
Definition select_meta_id (dnb_id : string) (d : db) : option Z :=
  option_map dm_id
    (List.find (fun r => String.eqb (dm_dnb_id r) dnb_id) (dnb_meta d)).

(** One row of the [executemany] into [dnb_name]. *)
Definition insert_dnb_name (d : db) (p : string * string) : db :=
  let '(dnb_id, var_name) := p in
  set_dnb_name
    (dnb_name d ++
     [{| dn_id := next_id (map dn_id (dnb_name d));
         dn_dnb_meta_id := select_meta_id dnb_id d;
         dn_var_name := var_name |}]) d.

(** One row of the [executemany] into [dnb_old_auth]. *)
Definition insert_dnb_old_auth (d : db)
    (v : string * string * option string * option string) : db :=
  let '(dnb_id, number, prefix, gnd_id) := v in
  set_dnb_old_auth
    (dnb_old_auth d ++
     [{| da_dnb_meta_id := select_meta_id dnb_id d;
         da_number := number;
         da_prefix := prefix;
         da_gnd_id := gnd_id |}]) d.

(** The body of the loop over [old_auths]: the pair [(prefix, gnd_id)]
    computed from one raw value. *)
Definition parse_old_auth (value : string) : option string * option string :=
  let i := PyStr.find "(" value in
  let j := PyStr.find ")" value in
  if (i =? 0) && (j >? 1)
  then (Some (PyStr.slice value (i + 1) (Some j)),
        Some (PyStr.slice value (j + 1) None))
  else (None, None).

(** The shape [(P)V] of an old authority number: an opening parenthesis
    at position 0, a non-empty prefix [P] up to the closing parenthesis
    (so [P] holds none), and a remainder [V]. *)
Definition old_auth_form (v P V : string) : Prop :=
  v = "(" +:+ P +:+ ")" +:+ V /\ P <> "" /\ ~ PyStr.occurs ")" P.

(** The list [values] that the loop over [old_auths] builds. *)
Definition old_auth_values (old_auths : list (string * string))
  : list (string * string * option string * option string) :=
  map (fun '(dnb_id, value) =>
         let '(prefix, gnd_id) := parse_old_auth value in
         (dnb_id, value, prefix, gnd_id)) old_auths.

(** [if xs and len(xs) > 0]: the list is neither [None] nor empty. *)
Definition nonempty {A} (xs : option (list A)) : option (list A) :=
  match xs with
  | Some (_ :: _) => xs
  | _ => None
  end.

(** Whether the guard [if xs and len(xs) > 0] lets the statement run. *)
Definition runs {A} (xs : option (list A)) : bool :=
  match nonempty xs with
  | Some _ => true
  | None => false
  end.

(** The list that [executemany] is given, empty when it does not run. *)
Definition entries {A} (xs : option (list A)) : list A :=
  match xs with
  | Some l => l
  | None => []
  end.

Definition db_import_dnb (c : con) (dnb_id : string)
    (pref_name owl_geonames owl_gnd owl_loc owl_viaf owl_wikidata : option string)
    (var_names old_auths : option (list (string * string))) : outcome con :=
  match insert_dnb_meta dnb_id pref_name owl_geonames owl_gnd owl_loc
          owl_viaf owl_wikidata (store c) with
  | Raise e => Raise e
  | Ok d =>
      let c := commit {| store := d; commits := commits c |} in
      let c :=
        match nonempty var_names with
        | Some var_names =>
            commit (execute (fun d => fold_left insert_dnb_name var_names d) c)
        | None => c
        end in
      let c :=
        match nonempty old_auths with
        | Some old_auths =>
            let values := old_auth_values old_auths in
            commit (execute (fun d => fold_left insert_dnb_old_auth values d) c)
        | None => c
        end in
      Ok c
  end.

(** [db_open]: connect and run the PRAGMA statements. *)
Definition db_open (c : con) : con := db_pragma c.

(** *** json_import_dnb *)

(** A value object or node reference of JSON-LD, [{"@value": ...}] or
    [{"@id": ...}], as the dict that [ijson] yields. *)
Abbreviation node := (gmap string string).

(** One object of the stream [ijson.items(json_file, 'item.item')], in
    expanded JSON-LD: the ["@id"] entry, when there is one, is a string,
    and every property read here is a list of nodes. *)
Record obj := {
  obj_at_id : option string;
  obj_props : gmap string (list node) }.

Definition owl_key : string := "http://www.w3.org/2002/07/owl#sameAs".
Definition pref_name_key : string :=
  "https://d-nb.info/standards/elementset/gnd#preferredNameForThePlaceOrGeographicName".
Definition var_names_key : string :=
  "https://d-nb.info/standards/elementset/gnd#variantNameForThePlaceOrGeographicName".
Definition old_auths_key : string :=
  "https://d-nb.info/standards/elementset/gnd#oldAuthorityNumber".

Definition dnb_ident : string := "https://d-nb.info/gnd/".
Definition owl_geonames_ident : string := "https://sws.geonames.org/".
Definition owl_gnd_ident : string := "https://d-nb.info/gnd/".
Definition owl_loc_ident : string := "http://id.loc.gov/rwo/agents/".
Definition owl_viaf_ident : string := "http://viaf.org/viaf/".
Definition owl_wikidata_ident : string := "http://www.wikidata.org/entity/".

(** [obj.get(key, [])] *)
Definition get_list (o : obj) (key : string) : list node :=
  match obj_props o !! key with
  | Some l => l
  | None => []
  end.

(** [s[len(ident):]] *)
Definition strip (ident s : string) : string :=
  PyStr.slice s (PyStr.len ident) None.

(** The five same-as identifiers, all [None] at the top of the loop. *)
Record owl_ids := {
  owl_geonames : option string;
  owl_gnd : option string;
  owl_loc : option string;
  owl_viaf : option string;
  owl_wikidata : option string }.

Definition owl_none : owl_ids :=
  {| owl_geonames := None; owl_gnd := None; owl_loc := None;
     owl_viaf := None; owl_wikidata := None |}.

(** [if owl_value.startswith(ident): x = owl_value[len(ident):]] *)
Definition assign_if (owl_value ident : string) (x : option string)
  : option string :=
  if PyStr.startswith owl_value ident then Some (strip ident owl_value) else x.

(** The body of [for owl_obj in owl_list]. *)
Definition owl_step (acc : owl_ids) (owl_obj : node) : owl_ids :=
  match owl_obj !! "@id" with
  | Some owl_value =>
      if negb (PyStr.truthy (Some owl_value)) then acc
      else
        {| owl_geonames :=
             assign_if owl_value owl_geonames_ident (owl_geonames acc);
           owl_gnd := assign_if owl_value owl_gnd_ident (owl_gnd acc);
           owl_loc := assign_if owl_value owl_loc_ident (owl_loc acc);
           owl_viaf := assign_if owl_value owl_viaf_ident (owl_viaf acc);
           owl_wikidata :=
             assign_if owl_value owl_wikidata_ident (owl_wikidata acc) |}
  | None => acc
  end.

Definition owl_scan (owl_list : list node) : owl_ids :=
  fold_left owl_step owl_list owl_none.

(** The identifier that one entry gives for the namespace [ident], when
    its IRI lies in that namespace. *)
Definition namespace_match (ident : string) (owl_obj : node) : option string :=
  match owl_obj !! "@id" with
  | Some owl_value =>
      if PyStr.startswith owl_value ident
      then Some (strip ident owl_value)
      else None
  | None => None
  end.

(** The identifier of the first, and of the last, entry of the list that
    lies in the namespace. *)
Definition first_match (ident : string) (owl_list : list node) : option string :=
  head (omap (namespace_match ident) owl_list).

Definition last_match (ident : string) (owl_list : list node) : option string :=
  last (omap (namespace_match ident) owl_list).

(** [pref_list[0].get('@value')] when the list is not empty. *)
Definition get_pref_name (pref_list : list node) : option string :=
  match pref_list with
  | [] => None
  | first :: _ => first !! "@value"
  end.

(** The loop that collects [(dnb_id, value)] for the entries whose
    ["@value"] is truthy; [None] when the list is empty. *)
Definition collect_values (dnb_id : string) (var_list : list node)
  : option (list (string * string)) :=
  match var_list with
  | [] => None
  | _ :: _ =>
      Some (flat_map
              (fun var_obj =>
                 match var_obj !! "@value" with
                 | Some value =>
                     if negb (PyStr.truthy (Some value)) then []
                     else [(dnb_id, value)]
                 | None => []
                 end) var_list)
  end.

(** The two guards on ["@id"] that an object passes to be imported. *)
Definition accepted (obj_id : string) : bool :=
  PyStr.truthy (Some obj_id)
  && PyStr.startswith obj_id dnb_ident
  && negb (PyStr.endswith obj_id "/about").

(** The ["@value"] strings of the entries that have a non-empty one. *)
Definition nonempty_values (var_list : list node) : list string :=
  flat_map (fun var_obj =>
              match var_obj !! "@value" with
              | Some value => if String.eqb value "" then [] else [value]
              | None => []
              end) var_list.

(** The number of rows of [dnb_meta] that carry [dnb_id]. *)
Definition count_dnb_id (dnb_id : string) (d : db) : nat :=
  length (List.filter (fun r => String.eqb (dm_dnb_id r) dnb_id) (dnb_meta d)).

(** No two rows of [dnb_meta] carry the same [dnb_id]. *)
Definition unique_ids (d : db) : Prop :=
  List.NoDup (map dm_dnb_id (dnb_meta d)).

(** The state of the loop of [json_import_dnb]: the connection, the
    count [n] of imported objects and the logger calls, oldest first. *)
Record state := {
  st_con : con;
  st_n : Z;
  st_log : list log_record }.

Definition log (lv : level) (msg : string) (st : state) : state :=
  {| st_con := st_con st; st_n := st_n st;
     st_log := st_log st ++ [(lv, msg)] |}.

Definition msg_no_id (n : Z) : string :=
  "object " +:+ pretty n +:+ " has no @id key".
Definition msg_ignoring (obj_id : string) : string :=
  "ignoring object " +:+ obj_id.
Definition msg_importing (dnb_id : string) (n : Z) : string :=
  "importing dnb id " +:+ dnb_id +:+ " (" +:+ pretty n +:+ ") ...".
Definition msg_imported (n : Z) (db_path : string) : string :=
  "imported " +:+ pretty n +:+ " objects into " +:+ dquote +:+ db_path +:+ dquote.
Definition msg_exists (dnb_id : string) : string :=
  "dnb id " +:+ dnb_id +:+ " already exists".
Definition msg_reading (json_path : string) : string :=
  "reading JSON-LD file " +:+ dquote +:+ json_path +:+ dquote +:+ " ...".

(** The body of [for obj in objects]. *)
Definition import_obj (db_path : string) (old_auth : bool)
    (st : state) (o : obj) : state :=
  match obj_at_id o with
  | None => log DEBUG (msg_no_id (st_n st)) st
  | Some obj_id =>
      if negb (PyStr.truthy (Some obj_id))
      then log DEBUG (msg_no_id (st_n st)) st
      else if negb (PyStr.startswith obj_id dnb_ident)
              || PyStr.endswith obj_id "/about"
      then log DEBUG (msg_ignoring obj_id) st
      else
        let dnb_id := strip dnb_ident obj_id in
        let owl := owl_scan (get_list o owl_key) in
        let pref_name := get_pref_name (get_list o pref_name_key) in
        let var_names := collect_values dnb_id (get_list o var_names_key) in
        let old_auths :=
          if old_auth
          then collect_values dnb_id (get_list o old_auths_key)
          else None in
        let st := log DEBUG (msg_importing dnb_id (st_n st)) st in
        match db_import_dnb (st_con st) dnb_id pref_name
                (owl_geonames owl) (owl_gnd owl) (owl_loc owl)
                (owl_viaf owl) (owl_wikidata owl) var_names old_auths with
        | Ok c =>
            let n := st_n st + 1 in
            let st := {| st_con := c; st_n := n; st_log := st_log st |} in
            if n mod 10000 =? 0
            then log INFO (msg_imported n db_path) st
            else st
        | Raise IntegrityError => log WARNING (msg_exists dnb_id) st
        end
  end.

Definition json_import_dnb (json_path : string) (objects : list obj)
    (db_path : string) (c : con) (old_auth : bool) : state :=
  let c := db_open c in
  let st := {| st_con := c; st_n := 0;
               st_log := [(DEBUG, msg_reading json_path)] |} in
  let st := fold_left (import_obj db_path old_auth) objects st in
  log INFO (msg_imported (st_n st) db_path) st.

(** *** Sample input *)

(** A place record with two same-as links into geonames, four variant-name
    entries of which two carry a name, and one old authority number. *)
Definition sample_obj : obj :=
  {| obj_at_id := Some "https://d-nb.info/gnd/4066009-6";
     obj_props :=
       {[ owl_key :=
            [ {[ "@id" := "https://sws.geonames.org/2809346" ]};
              {[ "@id" := "https://sws.geonames.org/6556969" ]};
              {[ "@id" := "http://example.org/wiesbaden" ]} ];
          pref_name_key := [ {[ "@value" := "Wiesbaden" ]} ];
          var_names_key :=
            [ {[ "@value" := "Aquae Mattiacae" ]};
              {[ "@value" := "" ]};
              {[ "@language" := "de" ]};
              {[ "@value" := "Wisibada" ]} ];
          old_auths_key := [ {[ "@value" := "(DE-588)4066009-6" ]} ] ]} |}.

(** An object without ["@id"]. *)
Definition sample_no_id : obj :=
  {| obj_at_id := None;
     obj_props := {[ pref_name_key := [ {[ "@value" := "Mainz" ]} ] ]} |}.

(** *** Readings of a run *)

Definition level_eqb (a b : level) : bool :=
  match a, b with
  | DEBUG, DEBUG | INFO, INFO | WARNING, WARNING | ERROR, ERROR => true
  | _, _ => false
  end.

(** The number of logger calls at level [lv]. *)
Definition count_level (lv : level) (l : list log_record) : nat :=
  length (List.filter (fun r => level_eqb (fst r) lv) l).

(** The object passes the guards on ["@id"]. *)
Definition accepted_obj (o : obj) : bool :=
  match obj_at_id o with
  | Some obj_id => accepted obj_id
  | None => false
  end.

(** Every child row points to a row of [dnb_meta]. *)
Definition children_attached (d : db) : Prop :=
  (forall r, In r (dnb_name d) ->
     exists p, In p (dnb_meta d) /\ dn_dnb_meta_id r = Some (dm_id p)) /\
  (forall r, In r (dnb_old_auth d) ->
     exists p, In p (dnb_meta d) /\ da_dnb_meta_id r = Some (dm_id p)).

(** The second store is the first with rows appended to the three DNB
    tables, none to [dnb_old_auth] when the run does not read old
    authority numbers; the other tables are the same. *)
Definition extends (old_auth : bool) (d d' : db) : Prop :=
  (exists rows, dnb_meta d' = dnb_meta d ++ rows) /\
  (exists rows, dnb_name d' = dnb_name d ++ rows) /\
  (exists rows, dnb_old_auth d' = dnb_old_auth d ++ rows /\
                (old_auth = false -> rows = [])) /\
  gaz_meta d' = gaz_meta d /\ gaz_name d' = gaz_name d /\
  fuzzy_meta d' = fuzzy_meta d /\ fuzzy_name d' = fuzzy_name d.

End Importer.

(** ** fuzzy.py *)

Module Fuzzy.
Import Sqlite.

(** The SQL functions that [db_open] loads into the connection with
    [con.load_extension(lib_path)] and that the two queries call.  They
    are native code outside the sources; a [None] is SQL NULL. *)
Record extension := {
  translit : option string -> option string;
  jaro_winkler : option string -> option string -> option Q }.

(** The integer nearest to [x], a tie going to the even one: the rounding
    of Python's fixed-point float formatting. *)
Definition round_half_even (x : Q) : Z :=
  let f := Qfloor x in
  match Qcompare (x - inject_Z f) (1 # 2) with
  | Lt => f
  | Gt => f + 1
  | Eq => if Z.even f then f else f + 1
  end.

(** ['{:.5f}'.format(threshold)], read back as the SQL literal it is. *)
Definition format_5f (threshold : Q) : Q :=
  inject_Z (round_half_even (threshold * 100000)) / 100000.

(** The binade of a positive rational: the [e] with
    [2^e <= x < 2^(e+1)]. *)
Definition floor_log2 (x : Q) : Z :=
  if Qle_bool 1 x
  then Z.log2 (Qfloor x)
  else - Z.log2_up (Qceiling (/ x)).

(** The spacing of the binary64 numbers around [x], as a power of two:
    52 fraction bits below the binade, and the subnormal spacing under
    [2^-1022]. *)
Definition ulp_exp (x : Q) : Z :=
  Z.max (floor_log2 (Qabs x)) (-1022) - 52.

Definition ulp (x : Q) : Q := 2 ^ ulp_exp x.

(** The binary64 number nearest to [x], a tie going to the even
    mantissa: what SQLite makes of a decimal literal when it reads the
    query, the REAL that the comparison then sees.  The literals of this
    program are far inside the range of binary64, so overflow to
    infinity is left out. *)
Definition to_double (x : Q) : Q :=
  inject_Z (round_half_even (x / ulp x)) * ulp x.

(** [WHERE jw >= literal]: SQLite compares two REALs, the score and the
    literal read as a binary64 number; a NULL [jw] does not pass. *)
Definition where_ge (literal : Q) (jw : option Q) : bool :=
  match jw with
  | Some x => Qle_bool (to_double literal) x
  | None => false
  end.

(** The column [jw] of the SELECT over [dnb_meta CROSS JOIN gaz_meta]. *)
Definition meta_jw (ext : extension) (d : dnb_meta_row) (g : gaz_meta_row)
  : option Q :=
  jaro_winkler ext (translit ext (dm_pref_name d))
                   (translit ext (gm_pref_title g)).

(** The column [jw] of the SELECT over [dnb_name CROSS JOIN gaz_name]. *)
Definition names_jw (ext : extension) (d : dnb_name_row) (g : gaz_name_row)
  : option Q :=
  jaro_winkler ext (translit ext (Some (dn_var_name d)))
                   (translit ext (gn_title g)).

(** One row of [dnb_meta CROSS JOIN gaz_meta] through the SELECT list and
    the WHERE clause. *)
Definition select_meta (ext : extension) (literal : Q)
    (d : dnb_meta_row) (g : gaz_meta_row) : list fuzzy_row :=
  let jw := meta_jw ext d g in
  match jw with
  | Some x =>
      if where_ge literal jw
      then [{| fz_dnb := dm_id d; fz_gaz := gm_id g; fz_jarow := x |}]
      else []
  | None => []
  end.

(** One row of [dnb_name CROSS JOIN gaz_name]. *)
Definition select_names (ext : extension) (literal : Q)
    (d : dnb_name_row) (g : gaz_name_row) : list fuzzy_row :=
  let jw := names_jw ext d g in
  match jw with
  | Some x =>
      if where_ge literal jw
      then [{| fz_dnb := dn_id d; fz_gaz := gn_id g; fz_jarow := x |}]
      else []
  | None => []
  end.

(** The rows the SELECT of [db_fuzzy_match_meta] yields on the tables [d]. *)
Definition query_meta (ext : extension) (threshold : Q) (d : db)
  : list fuzzy_row :=
  let literal := format_5f threshold in
  flat_map (fun r => flat_map (select_meta ext literal r) (gaz_meta d))
           (dnb_meta d).

(** The rows the SELECT of [db_fuzzy_match_names] yields. *)
Definition query_names (ext : extension) (threshold : Q) (d : db)
  : list fuzzy_row :=
  let literal := format_5f threshold in
  flat_map (fun r => flat_map (select_names ext literal r) (gaz_name d))
           (dnb_name d).

Definition db_fuzzy_match_meta (ext : extension) (c : con) (threshold : Q)
  : con :=
  commit (execute
            (fun d => set_fuzzy_meta (fuzzy_meta d ++ query_meta ext threshold d) d)
            c).

Definition db_fuzzy_match_names (ext : extension) (c : con) (threshold : Q)
  : con :=
  commit (execute
            (fun d => set_fuzzy_name (fuzzy_name d ++ query_names ext threshold d) d)
            c).

Definition db_init (c : con) : con :=
  let c := db_pragma c in
  let c := execute (set_fuzzy_meta []) c in
  let c := execute (set_fuzzy_name []) c in
  commit c.

(** The parsed command line, as far as the script reads it. *)
Record args := {
  meta : bool;
  names : bool;
  threshold : Q }.

(** The calls of lines 152 to 160, made on a connection that holds the
    extension: [db_init], then the matcher of each category asked for.
    This is what a caller of the three functions runs; the script itself
    is [main] below. *)
Definition matching_steps (ext : extension) (a : args) (c : con) : con :=
  let c := db_init c in
  let c := if meta a then db_fuzzy_match_meta ext c (threshold a) else c in
  let c := if names a then db_fuzzy_match_names ext c (threshold a) else c in
  c.

(** The exceptions that nothing in [fuzzy.py] catches. *)
Inductive py_exn := AttributeError | OperationalError.

Inductive py_result (A : Type) :=
| Returns (a : A)
| Raises (e : py_exn).
Arguments Returns {A} a.
Arguments Raises {A} e.

(** [parse_args]: the parser is built by three [add_argument] calls and
    then, at line 121, by [parser.add_argumnet(...)], which is no
    attribute of [ArgumentParser]; the call raises [AttributeError]
    before the command line is read, whatever it holds. *)
Definition parse_args (argv : list string) : py_result args :=
  Raises AttributeError.

(** What [con.load_extension(lib_path)] does: it loads the library, or
    it raises, and [str(ex)] is the text of the exception. *)
Inductive load_result :=
| Loaded (ext : extension)
| LoadFailed (ex : string).

Definition msg_load_failed (lib_path ex : string) : string :=
  "failed to load extension " +:+ Importer.dquote +:+ lib_path
  +:+ Importer.dquote +:+ ": " +:+ ex.
Definition msg_matching_meta : string :=
  "matching DNB and Gazetteer meta titles ...".
Definition msg_matching_names : string :=
  "matching DNB and Gazetteer names ...".

(** [db_open]: the connection, with the extension when
    [con.load_extension] succeeded; when it raised, the handler logs an
    error and the connection is returned without the SQL functions. *)
Definition db_open (lib_path : string) (load : load_result) (c : con)
  : con * option extension * list Importer.log_record :=
  match load with
  | Loaded ext => (c, Some ext, [])
  | LoadFailed ex => (c, None, [(Importer.ERROR, msg_load_failed lib_path ex)])
  end.

(** A matcher on a connection that may lack the extension: preparing
    the query then raises [OperationalError] (no such function), before
    any row is written or committed. *)
Definition call_matcher (matcher : extension -> con -> Q -> con)
    (lib : option extension) (c : con) (t : Q) : py_result con :=
  match lib with
  | Some ext => Returns (matcher ext c t)
  | None => Raises OperationalError
  end.

(** How a run of the script ends: the connection, the logger calls, and
    the exception that stopped it, if one did. *)
Record script_end := {
  end_con : con;
  end_log : list Importer.log_record;
  end_exn : option py_exn }.

(** The script, [if __name__ == '__main__']; [lib_path] is
    [args.library] and [load] what loading that library does. *)
Definition main (argv : list string) (lib_path : string) (load : load_result)
    (c : con) : script_end :=
  match parse_args argv with
  | Raises e => {| end_con := c; end_log := []; end_exn := Some e |}
  | Returns a =>
      let '(c, lib, log) := db_open lib_path load c in
      let c := db_init c in
      let after_meta :=
        if meta a
        then (log ++ [(Importer.INFO, msg_matching_meta)],
              call_matcher db_fuzzy_match_meta lib c (threshold a))
        else (log, Returns c) in
      match after_meta with
      | (log, Raises e) => {| end_con := c; end_log := log; end_exn := Some e |}
      | (log, Returns c) =>
          if names a
          then
            let log := log ++ [(Importer.INFO, msg_matching_names)] in
            match call_matcher db_fuzzy_match_names lib c (threshold a) with
            | Raises e => {| end_con := c; end_log := log; end_exn := Some e |}
            | Returns c => {| end_con := c; end_log := log; end_exn := None |}
            end
          else {| end_con := c; end_log := log; end_exn := None |}
      end
  end.

(** *** Sample input *)

(** A stand-in for the loaded extension: no transliteration, and a score
    of 1 for equal strings, 0 for different ones, NULL on NULL. *)
Definition sample_ext : extension :=
  {| translit := fun s => s;
     jaro_winkler := fun a b =>
       match a, b with
       | Some x, Some y => Some (if String.eqb x y then 1%Q else 0%Q)
       | _, _ => None
       end |}.

(** The binary64 numbers that Python prints as 0.7 and 0.8. *)
Definition float_0_7 : Q := 6305039478318694 # 9007199254740992.
Definition float_0_8 : Q := 7205759403792794 # 9007199254740992.

(** A stand-in like [sample_ext] that scores equal strings [s]. *)
Definition scoring_ext (s : Q) : extension :=
  {| translit := fun x => x;
     jaro_winkler := fun a b =>
       match a, b with
       | Some x, Some y => Some (if String.eqb x y then s else 0%Q)
       | _, _ => None
       end |}.

(** One DNB record and one Gazetteer record that share the title and one
    name, and the candidates of an earlier run in both tables. *)
Definition sample_db : db :=
  {| dnb_meta :=
       [{| dm_id := 1; dm_dnb_id := "4066009-6";
           dm_pref_name := Some "Wiesbaden";
           dm_owl_geonames := None; dm_owl_gnd := None; dm_owl_loc := None;
           dm_owl_viaf := None; dm_owl_wikidata := None |}];
     dnb_name :=
       [{| dn_id := 1; dn_dnb_meta_id := Some 1; dn_var_name := "Wisibada" |}];
     dnb_old_auth := [];
     gaz_meta :=
       [{| gm_id := 1; gm_gaz_id := "2181496";
           gm_pref_title := Some "Wiesbaden" |}];
     gaz_name :=
       [{| gn_id := 1; gn_gaz_id := "2181496"; gn_title := Some "Wisibada" |};
        {| gn_id := 2; gn_gaz_id := "2181496"; gn_title := Some "Mainz" |}];
     fuzzy_meta := [{| fz_dnb := 7; fz_gaz := 7; fz_jarow := 1 |}];
     fuzzy_name := [{| fz_dnb := 9; fz_gaz := 9; fz_jarow := 1 |}] |}.

End Fuzzy.

(** ** import.py: the Gazetteer side *)

Module GazImporter.
Import Sqlite Importer.

(** What the import of a Gazetteer dump uses and the sources do not
    hold: [json.dumps(obj, use_decimal=True)] of simplejson, and the
    INSTEAD OF INSERT trigger of the view [gaz_raw_view], which
    [schema.sql] defines.  The trigger either rewrites the tables or
    raises; [Obj] is the type of the objects that [ijson] yields, and
    [get_gazId] is [obj.get('gazId')]. *)
Record gaz_env (Obj : Type) := {
  get_gazId : Obj -> option string;
  dumps : Obj -> string;
  gaz_raw_view : string -> db -> outcome db }.
Arguments get_gazId {Obj} _ _.
Arguments dumps {Obj} _ _.
Arguments gaz_raw_view {Obj} _ _ _.

Definition db_import_gaz {Obj} (env : gaz_env Obj) (c : con) (json : string)
  : outcome con :=
  match gaz_raw_view env json (store c) with
  | Ok d => Ok (commit {| store := d; commits := commits c |})
  | Raise e => Raise e
  end.

Definition msg_no_gazId : string := "object has to gazId".
Definition msg_importing_gaz (gaz_id : string) (n : Z) : string :=
  "importing gaz id " +:+ gaz_id +:+ " (" +:+ pretty n +:+ ") ...".
Definition msg_gaz_exists (gaz_id : string) : string :=
  "gaz id " +:+ gaz_id +:+ " already exists".
Definition msg_reading_json (json_path : string) : string :=
  "reading JSON file " +:+ dquote +:+ json_path +:+ dquote +:+ " ...".

(** The body of [for obj in objects] of [json_import_gaz]. *)
Definition import_gaz_obj {Obj} (env : gaz_env Obj) (db_path : string)
    (st : state) (o : Obj) : state :=
  match get_gazId env o with
  | None => log WARNING msg_no_gazId st
  | Some gaz_id =>
      if negb (PyStr.truthy (Some gaz_id))
      then log WARNING msg_no_gazId st
      else
        let raw := dumps env o in
        let st := log DEBUG (msg_importing_gaz gaz_id (st_n st)) st in
        match db_import_gaz env (st_con st) raw with
        | Ok c =>
            let n := st_n st + 1 in
            let st := {| st_con := c; st_n := n; st_log := st_log st |} in
            if n mod 10000 =? 0
            then log INFO (msg_imported n db_path) st
            else st
        | Raise IntegrityError => log WARNING (msg_gaz_exists gaz_id) st
        end
  end.

Definition json_import_gaz {Obj} (env : gaz_env Obj) (json_path : string)
    (objects : list Obj) (db_path : string) (c : con) : state :=
  let c := db_open c in
  let st := {| st_con := c; st_n := 0;
               st_log := [(DEBUG, msg_reading_json json_path)] |} in
  let st := fold_left (import_gaz_obj env db_path) objects st in
  log INFO (msg_imported (st_n st) db_path) st.

(** The object carries a non-empty [gazId]. *)
Definition has_gazId {Obj} (env : gaz_env Obj) (o : Obj) : bool :=
  PyStr.truthy (get_gazId env o).

(** *** Sample input *)

(** Objects as pairs of an optional [gazId] and their JSON text, and a
    trigger that keeps one row of [gaz_meta] per distinct text. *)
Definition sample_env : gaz_env (option string * string) :=
  {| get_gazId := fst;
     dumps := snd;
     gaz_raw_view := fun json d =>
       if existsb (fun r => String.eqb (gm_gaz_id r) json) (gaz_meta d)
       then Raise IntegrityError
       else Ok {| dnb_meta := dnb_meta d; dnb_name := dnb_name d;
                  dnb_old_auth := dnb_old_auth d;
                  gaz_meta := gaz_meta d ++
                    [{| gm_id := next_id (map gm_id (gaz_meta d));
                        gm_gaz_id := json; gm_pref_title := None |}];
                  gaz_name := gaz_name d;
                  fuzzy_meta := fuzzy_meta d;
                  fuzzy_name := fuzzy_name d |} |}.

End GazImporter.

(** ** export.py *)

Module Exporter.
Import Sqlite Fuzzy.

(** The table of GND identifiers of Gazetteer records, which the two
    export queries join. *)
Record gaz_ident_gnd_row := {
  gi_gaz_id : string;
  gi_gnd_id : option string }.

(** The database as the export reads it. *)
Record export_db := {
  tables : db;
  gaz_ident_gnd : list gaz_ident_gnd_row }.

(** A row of the SELECT of [db_export_fuzzy_meta]. *)
Record meta_export_row := {
  me_DnbId : string;
  me_DnbPrefName : option string;
  me_GazGnd : option string;
  me_GazPrefTitle : option string;
  me_Threshold : Q }.

(** A row of the SELECT of [db_export_fuzzy_names]. *)
Record names_export_row := {
  ne_DnbId : string;
  ne_DnbPrefName : option string;
  ne_DnbName : string;
  ne_GazGndId : option string;
  ne_GazPrefTitle : option string;
  ne_GazTitle : option string;
  ne_Threshold : Q }.

(** ['{:f}'.format(threshold)]: six decimals. *)
Definition format_f (threshold : Q) : Q :=
  inject_Z (round_half_even (threshold * 1000000)) / 1000000.

(** [fuzzy_meta] joined with [dnb_meta], [gaz_meta] and [gaz_ident_gnd]
    as the three INNER JOINs of [db_export_fuzzy_meta] say. *)
Definition meta_joined (e : export_db) : list meta_export_row :=
  flat_map (fun f =>
    flat_map (fun dm =>
      if dm_id dm =? fz_dnb f then
        flat_map (fun gm =>
          if gm_id gm =? fz_gaz f then
            flat_map (fun gi =>
              if String.eqb (gi_gaz_id gi) (gm_gaz_id gm) then
                [{| me_DnbId := dm_dnb_id dm;
                    me_DnbPrefName := dm_pref_name dm;
                    me_GazGnd := gi_gnd_id gi;
                    me_GazPrefTitle := gm_pref_title gm;
                    me_Threshold := fz_jarow f |}]
              else []) (gaz_ident_gnd e)
          else []) (gaz_meta (tables e))
      else []) (dnb_meta (tables e)))
    (fuzzy_meta (tables e)).

(** [fuzzy_name] joined as the five INNER JOINs of
    [db_export_fuzzy_names] say. *)
Definition names_joined (e : export_db) : list names_export_row :=
  flat_map (fun f =>
    flat_map (fun dn =>
      if dn_id dn =? fz_dnb f then
        flat_map (fun gn =>
          if gn_id gn =? fz_gaz f then
            flat_map (fun dm =>
              if match dn_dnb_meta_id dn with
                 | Some i => dm_id dm =? i
                 | None => false
                 end then
                flat_map (fun gm =>
                  if String.eqb (gm_gaz_id gm) (gn_gaz_id gn) then
                    flat_map (fun gi =>
                      if String.eqb (gi_gaz_id gi) (gm_gaz_id gm) then
                        [{| ne_DnbId := dm_dnb_id dm;
                            ne_DnbPrefName := dm_pref_name dm;
                            ne_DnbName := dn_var_name dn;
                            ne_GazGndId := gi_gnd_id gi;
                            ne_GazPrefTitle := gm_pref_title gm;
                            ne_GazTitle := gn_title gn;
                            ne_Threshold := fz_jarow f |}]
                      else []) (gaz_ident_gnd e)
                  else []) (gaz_meta (tables e))
              else []) (dnb_meta (tables e))
          else []) (gaz_name (tables e))
      else []) (dnb_name (tables e)))
    (fuzzy_name (tables e)).

(** The rows that pass [WHERE Threshold >= {:f}] of the meta export,
    the literal read as a binary64 number as in the matchers.
    [GROUP BY dnb_meta.dnb_id] then keeps one of them for each DNB id,
    and LIMIT the first ones; which row of a group SQLite keeps is not
    fixed, so the model stops here. *)
Definition meta_where_rows (e : export_db) (threshold : Q)
  : list meta_export_row :=
  List.filter
    (fun r => Qle_bool (to_double (format_f threshold)) (me_Threshold r))
    (meta_joined e).

(** The rows that pass [WHERE Threshold > {:f}] of the names export. *)
Definition names_where_rows (e : export_db) (threshold : Q)
  : list names_export_row :=
  List.filter
    (fun r => negb (Qle_bool (ne_Threshold r) (to_double (format_f threshold))))
    (names_joined e).

End Exporter.

(** * Properties *)

(** ** Facts on the string operations *)

Module PyStrFacts.
Import PyStr.

Lemma len_nonneg s : 0 <= len s.
Proof. unfold len. lia. Qed.

Lemma len_String a s : len (String a s) = 1 + len s.
Proof. unfold len. cbn [String.length]. lia. Qed.

Lemma app_empty r : "" +:+ r = r.
Proof. reflexivity. Qed.

Lemma app_String a p r : String a p +:+ r = String a (p +:+ r).
Proof. reflexivity. Qed.

Lemma len_app p r : len (p +:+ r) = len p + len r.
Proof.
  induction p as [|a p IH].
  - rewrite app_empty. unfold len. simpl. lia.
  - rewrite app_String, !len_String, IH. lia.
Qed.

Lemma len_zero s : len s = 0 -> s = "".
Proof. destruct s; [easy|]. rewrite len_String. pose proof (len_nonneg s). lia. Qed.

Lemma occurs_String c a s : occurs c (String a s) <-> a = c \/ occurs c s.
Proof. unfold occurs. simpl. tauto. Qed.

Lemma find_from_range c s i :
  find_from c s i = -1 \/ i <= find_from c s i.
Proof.
  revert i. induction s as [|a s IH]; intro i; cbn [find_from].
  - now left.
  - destruct (Ascii.eqb a c); [right; lia|].
    destruct (IH (i + 1)) as [H|H]; [now left | right; lia].
Qed.

Lemma find_from_app c p r i :
  ~ occurs c p -> find_from c (p +:+ String c r) i = i + len p.
Proof.
  revert i. induction p as [|a p IH]; intros i Hp;
    rewrite ?app_empty, ?app_String; cbn [find_from].
  - rewrite Ascii.eqb_refl. unfold len. simpl. lia.
  - rewrite occurs_String in Hp.
    destruct (Ascii.eqb_spec a c) as [->|_]; [tauto|].
    rewrite IH by tauto. rewrite len_String. lia.
Qed.

Lemma find_from_inv c s i :
  0 <= i -> find_from c s i <> -1 ->
  exists p r, s = p +:+ String c r /\ ~ occurs c p /\ find_from c s i = i + len p.
Proof.
  revert i. induction s as [|a s IH]; intros i Hi; cbn [find_from]; [easy|].
  destruct (Ascii.eqb_spec a c) as [->|Hne]; intros Hf.
  - exists "", s. repeat split; [easy | unfold len; simpl; lia].
  - destruct (IH (i + 1)) as (p & r & -> & Hp & Hj); [lia | easy |].
    exists (String a p), r. repeat split.
    + rewrite occurs_String. tauto.
    + rewrite Hj, len_String. lia.
Qed.

Lemma drop_app p r : drop (String.length p) (p +:+ r) = r.
Proof. induction p; rewrite ?app_empty, ?app_String; simpl; auto. Qed.

Lemma take_app p r : take (String.length p) (p +:+ r) = p.
Proof.
  induction p; rewrite ?app_empty, ?app_String; simpl;
    [now destruct r | congruence].
Qed.

Lemma take_all s : take (String.length s) s = s.
Proof. induction s; simpl; congruence. Qed.

(** [(a + b + c)[len a : len a + len b] = b] *)
Lemma slice_middle a b c :
  slice (a +:+ b +:+ c) (len a) (Some (len a + len b)) = b.
Proof.
  unfold slice, clamp. rewrite !len_app.
  pose proof (len_nonneg a). pose proof (len_nonneg b). pose proof (len_nonneg c).
  destruct (Z.ltb_spec (len a) 0); [lia|].
  destruct (Z.ltb_spec (len a + len b) 0); [lia|].
  rewrite !Z.min_l by lia.
  replace (Z.to_nat (len a)) with (String.length a) by (unfold len; lia).
  replace (Z.to_nat (len a + len b - len a)) with (String.length b)
    by (unfold len; lia).
  now rewrite drop_app, take_app.
Qed.

(** [(a + b)[len a :] = b] *)
Lemma slice_tail a b : slice (a +:+ b) (len a) None = b.
Proof.
  unfold slice, clamp. rewrite !len_app.
  pose proof (len_nonneg a). pose proof (len_nonneg b).
  destruct (Z.ltb_spec (len a) 0); [lia|].
  rewrite !Z.min_l by lia.
  replace (Z.to_nat (len a)) with (String.length a) by (unfold len; lia).
  replace (Z.to_nat (len a + len b - len a)) with (String.length b)
    by (unfold len; lia).
  now rewrite drop_app, take_all.
Qed.

End PyStrFacts.

(** ** import.py *)

Module ImporterFacts.
Import Sqlite Importer PyStrFacts.

Lemma parse_old_auth_shape v P V :
  old_auth_form v P V -> parse_old_auth v = (Some P, Some V).
Proof.
  intros (-> & HP & Hocc). unfold parse_old_auth, PyStr.find.
  rewrite !app_String, !app_empty. cbn [PyStr.find_from].
  change (Ascii.eqb "(" "(") with true. change (Ascii.eqb "(" ")") with false.
  cbn iota. rewrite (find_from_app _ _ _ _ Hocc).
  assert (0 < PyStr.len P).
  { destruct P; [easy|]. rewrite len_String. pose proof (len_nonneg P). lia. }
  replace (0 =? 0) with true by reflexivity.
  destruct (Z.gtb_spec (0 + 1 + PyStr.len P) 1) as [_|]; [|lia].
  cbn [andb]. f_equal; f_equal.
  - change (String "(" (P +:+ String ")" V)) with ("(" +:+ P +:+ String ")" V).
    replace (0 + 1) with (PyStr.len "(") by reflexivity.
    apply slice_middle.
  - replace (0 + 1 + PyStr.len P + 1) with (PyStr.len ("(" +:+ P +:+ ")")).
    + replace (String "(" (P +:+ String ")" V)) with (("(" +:+ P +:+ ")") +:+ V).
      * apply slice_tail.
      * rewrite !app_String, !app_empty. f_equal.
        clear. induction P; rewrite ?app_empty, ?app_String; [easy|congruence].
    + rewrite !app_String, !app_empty, len_String, len_app.
      change (PyStr.len ")") with 1. lia.
Qed.

Lemma parse_old_auth_other v :
  (~ exists P V, old_auth_form v P V) -> parse_old_auth v = (None, None).
Proof.
  intros Hno. unfold parse_old_auth.
  destruct (Z.eqb_spec (PyStr.find "(" v) 0) as [Hi|]; [|reflexivity].
  destruct (Z.gtb_spec (PyStr.find ")" v) 1) as [Hj|]; [|reflexivity].
  exfalso. apply Hno. unfold PyStr.find in *.
  destruct v as [|a v]; [discriminate Hi|]. cbn [PyStr.find_from] in *.
  destruct (Ascii.eqb_spec a "(") as [->|_].
  - change (Ascii.eqb "(" ")") with false in Hj. cbn iota in Hj.
    destruct (find_from_inv ")" v (0 + 1)) as (p & r & -> & Hp & Hf); [lia|lia|].
    exists p, r. repeat split; [|exact Hp].
    intros ->. rewrite Hf in Hj. unfold PyStr.len in Hj. simpl in Hj. lia.
  - destruct (find_from_range "(" v (0 + 1)); lia.
Qed.


Example parse_old_auth_de588 :
  parse_old_auth "(DE-588)118540238" = (Some "DE-588", Some "118540238").
Proof. reflexivity. Qed.

Example parse_old_auth_plain : parse_old_auth "118540238" = (None, None).
Proof. reflexivity. Qed.

Example parse_old_auth_empty_prefix : parse_old_auth "()118540238" = (None, None).
Proof. reflexivity. Qed.

Example parse_old_auth_not_leading : parse_old_auth "x(DE-588)1" = (None, None).
Proof. reflexivity. Qed.

(** *** The two [executemany] statements *)

Lemma db_eta d :
  {| dnb_meta := dnb_meta d; dnb_name := dnb_name d;
     dnb_old_auth := dnb_old_auth d; gaz_meta := gaz_meta d;
     gaz_name := gaz_name d; fuzzy_meta := fuzzy_meta d;
     fuzzy_name := fuzzy_name d |} = d.
Proof. now destruct d. Qed.

Lemma fold_insert_dnb_name l d :
  exists rows,
    fold_left insert_dnb_name l d = set_dnb_name (dnb_name d ++ rows) d /\
    map name_cols rows = map (fun p => (select_meta_id (fst p) d, snd p)) l.
Proof.
  revert d. induction l as [|[i v] l IH]; intro d; cbn [fold_left].
  - exists []. split; [|reflexivity].
    unfold set_dnb_name. now rewrite app_nil_r, db_eta.
  - destruct (IH (insert_dnb_name d (i, v))) as (rows & -> & Hcols).
    eexists (_ :: rows). split.
    + unfold insert_dnb_name, set_dnb_name; cbn.
      now rewrite <- app_assoc.
    + cbn [map]. rewrite Hcols. reflexivity.
Qed.

Lemma fold_insert_dnb_old_auth l d :
  exists rows,
    fold_left insert_dnb_old_auth l d
    = set_dnb_old_auth (dnb_old_auth d ++ rows) d /\
    map old_auth_cols rows
    = map (fun v => let '(i, n, p, g) := v in (select_meta_id i d, n, p, g)) l.
Proof.
  revert d. induction l as [|[[[i n] p] g] l IH]; intro d; cbn [fold_left].
  - exists []. split; [|reflexivity].
    unfold set_dnb_old_auth. now rewrite app_nil_r, db_eta.
  - destruct (IH (insert_dnb_old_auth d (i, n, p, g))) as (rows & -> & Hcols).
    eexists (_ :: rows). split.
    + unfold insert_dnb_old_auth, set_dnb_old_auth; cbn.
      now rewrite <- app_assoc.
    + cbn [map]. rewrite Hcols. reflexivity.
Qed.


(** *** What a successful [db_import_dnb] leaves behind *)

Lemma select_meta_id_set_dnb_name i rows d :
  select_meta_id i (set_dnb_name rows d) = select_meta_id i d.
Proof. reflexivity. Qed.

Lemma old_auth_values_cols l (f : string -> option Z) :
  map (fun v : string * string * option string * option string =>
         let '(i, n, p, g) := v in (f i, n, p, g)) (old_auth_values l)
  = map (fun p => (f (fst p), snd p, fst (parse_old_auth (snd p)),
                   snd (parse_old_auth (snd p)))) l.
Proof.
  unfold old_auth_values. rewrite map_map. apply map_ext.
  intros [i v]. cbn. now destruct (parse_old_auth v).
Qed.

Lemma db_import_dnb_ok c dnb_id pn o1 o2 o3 o4 o5 vn oa d1 :
  insert_dnb_meta dnb_id pn o1 o2 o3 o4 o5 (store c) = Ok d1 ->
  exists nrows arows,
    let d2 := set_dnb_name (dnb_name d1 ++ nrows) d1 in
    let d3 := set_dnb_old_auth (dnb_old_auth d1 ++ arows) d2 in
    map name_cols nrows
    = map (fun p => (select_meta_id (fst p) d1, snd p)) (entries vn) /\
    map old_auth_cols arows
    = map (fun p => (select_meta_id (fst p) d1, snd p,
                     fst (parse_old_auth (snd p)),
                     snd (parse_old_auth (snd p)))) (entries oa) /\
    db_import_dnb c dnb_id pn o1 o2 o3 o4 o5 vn oa
    = Ok {| store := d3;
            commits := (if runs oa then [d3] else [])
                       ++ (if runs vn then [d2] else [])
                       ++ d1 :: commits c |}.
Proof.
  intros Hins. unfold db_import_dnb. rewrite Hins.
  destruct (fold_insert_dnb_name (entries vn) d1) as (nrows & Hn & Hncols).
  exists nrows.
  destruct (fold_insert_dnb_old_auth (old_auth_values (entries oa))
              (set_dnb_name (dnb_name d1 ++ nrows) d1))
    as (arows & Ha & Hacols).
  exists arows. cbn zeta. split; [exact Hncols|]. split.
  { rewrite Hacols. apply old_auth_values_cols. }
  assert (Hn0 : entries vn = [] -> set_dnb_name (dnb_name d1 ++ nrows) d1 = d1).
  { intros E. rewrite E in Hn. cbn in Hn. congruence. }
  assert (Ha0 : entries oa = [] ->
                set_dnb_old_auth (dnb_old_auth d1 ++ arows)
                  (set_dnb_name (dnb_name d1 ++ nrows) d1)
                = set_dnb_name (dnb_name d1 ++ nrows) d1).
  { intros E. rewrite E in Ha. cbn in Ha. cbn. congruence. }
  destruct vn as [[|p vn]|]; cbn [nonempty runs entries] in *;
    try (pose proof (Hn0 eq_refl) as E; clear Hn0; rewrite ?E in * );
    (destruct oa as [[|q oa]|]; cbn [nonempty runs entries] in *;
     unfold commit, execute; cbn [store commits];
     rewrite ?Hn, ?Ha, ?(Ha0 eq_refl); reflexivity).
Qed.


Lemma insert_dnb_meta_ok dnb_id pn o1 o2 o3 o4 o5 d d1 :
  insert_dnb_meta dnb_id pn o1 o2 o3 o4 o5 d = Ok d1 ->
  existsb (fun r => String.eqb (dm_dnb_id r) dnb_id) (dnb_meta d) = false /\
  d1 = set_dnb_meta
         (dnb_meta d ++
          [{| dm_id := next_id (map dm_id (dnb_meta d));
              dm_dnb_id := dnb_id; dm_pref_name := pn;
              dm_owl_geonames := o1; dm_owl_gnd := o2; dm_owl_loc := o3;
              dm_owl_viaf := o4; dm_owl_wikidata := o5 |}]) d.
Proof.
  unfold insert_dnb_meta. destruct (existsb _ _); [discriminate|].
  intros [= <-]. auto.
Qed.

Lemma db_import_dnb_inv c dnb_id pn o1 o2 o3 o4 o5 vn oa c' :
  db_import_dnb c dnb_id pn o1 o2 o3 o4 o5 vn oa = Ok c' ->
  exists d1, insert_dnb_meta dnb_id pn o1 o2 o3 o4 o5 (store c) = Ok d1.
Proof.
  unfold db_import_dnb.
  destruct (insert_dnb_meta _ _ _ _ _ _ _ _) as [d1|e]; [eauto|discriminate].
Qed.

(** C3: a raw value of the shape (P)V, with P non-empty up to the closing
    parenthesis, is stored with prefix P and gnd_id V; every other raw
    value is stored with both null; the raw value itself is the number
    column of the row in all cases. *)
Theorem old_authority_parsing :
  (forall v P V,
     old_auth_form v P V -> parse_old_auth v = (Some P, Some V)) /\
  (forall v,
     (~ exists P V, old_auth_form v P V) -> parse_old_auth v = (None, None)) /\
  (forall c dnb_id pn o1 o2 o3 o4 o5 vn oa c',
     db_import_dnb c dnb_id pn o1 o2 o3 o4 o5 vn oa = Ok c' ->
     map (fun r => (da_number r, da_prefix r, da_gnd_id r))
         (dnb_old_auth (store c'))
     = map (fun r => (da_number r, da_prefix r, da_gnd_id r))
           (dnb_old_auth (store c))
       ++ map (fun p => (snd p, fst (parse_old_auth (snd p)),
                         snd (parse_old_auth (snd p)))) (entries oa)).
Proof.
  split; [exact parse_old_auth_shape|]. split; [exact parse_old_auth_other|].
  intros c dnb_id pn o1 o2 o3 o4 o5 vn oa c' Hok.
  destruct (db_import_dnb_inv _ _ _ _ _ _ _ _ _ _ _ Hok) as [d1 Hins].
  destruct (db_import_dnb_ok c dnb_id pn o1 o2 o3 o4 o5 vn oa d1 Hins)
    as (nrows & arows & _ & Hcols & Heq).
  rewrite Heq in Hok. injection Hok as <-.
  apply insert_dnb_meta_ok in Hins as [_ ->].
  cbn [store dnb_old_auth set_dnb_old_auth set_dnb_meta].
  rewrite map_app. f_equal.
  apply (f_equal (map (fun x : option Z * string * option string * option string =>
                         let '(_, n, p, g) := x in (n, p, g)))) in Hcols.
  rewrite !map_map in Hcols. exact Hcols.
Qed.

Lemma old_authority_parsing_witness :
  old_auth_form "(DE-588)118540238" "DE-588" "118540238" /\
  parse_old_auth "(DE-588)118540238" = (Some "DE-588", Some "118540238") /\
  (~ exists P V, old_auth_form "118540238" P V) /\
  parse_old_auth "118540238" = (None, None) /\
  exists c',
    db_import_dnb (connect empty_db) "4066009-6" None None None None None None
      None (Some [("4066009-6", "(DE-588)118540238");
                  ("4066009-6", "118540238")]) = Ok c' /\
    map (fun r => (da_number r, da_prefix r, da_gnd_id r))
        (dnb_old_auth (store c'))
    = [("(DE-588)118540238", Some "DE-588", Some "118540238");
       ("118540238", None, None)].
Proof.
  assert (F : old_auth_form "(DE-588)118540238" "DE-588" "118540238").
  { split; [reflexivity|]. split; [discriminate|].
    unfold PyStr.occurs. simpl. intuition discriminate. }
  assert (N : ~ exists P V, old_auth_form "118540238" P V).
  { intros (P & V & H & _). discriminate H. }
  split; [exact F|]. split.
  - exact (proj1 old_authority_parsing _ _ _ F).
  - split; [exact N|]. split.
    + exact (proj1 (proj2 old_authority_parsing) _ N).
    + eexists. split; [reflexivity|].
      exact (proj2 (proj2 old_authority_parsing) (connect empty_db)
               "4066009-6" None None None None None None None
               (Some [("4066009-6", "(DE-588)118540238");
                      ("4066009-6", "118540238")]) _ eq_refl).
Defined.


(** *** Commit points of one record *)

(** C5, as the code has it: a record is committed in up to three steps.
    The parent row is committed first, on its own; then all of its
    variant names in one commit; then all of its old authority numbers in
    one commit.  At each of these commit points the parent row is there
    and each of the two groups of children is either wholly absent or
    wholly present, the old authority numbers only once the variant names
    are; the last commit point is the complete record. *)
Theorem record_commit_points c dnb_id pn o1 o2 o3 o4 o5 vn oa c' :
  db_import_dnb c dnb_id pn o1 o2 o3 o4 o5 vn oa = Ok c' ->
  exists parent new,
    commits c' = new ++ commits c /\
    last new = Some (set_dnb_meta (dnb_meta (store c) ++ [parent]) (store c)) /\
    head new = Some (store c') /\
    (forall s, In s new ->
       dnb_meta s = dnb_meta (store c) ++ [parent] /\
       (dnb_name s = dnb_name (store c) \/ dnb_name s = dnb_name (store c')) /\
       (dnb_old_auth s = dnb_old_auth (store c) \/
        dnb_old_auth s = dnb_old_auth (store c') /\
        dnb_name s = dnb_name (store c'))) /\
    map name_cols (dnb_name (store c'))
    = map name_cols (dnb_name (store c))
      ++ map (fun p => (select_meta_id (fst p) (store c'), snd p)) (entries vn) /\
    map old_auth_cols (dnb_old_auth (store c'))
    = map old_auth_cols (dnb_old_auth (store c))
      ++ map (fun p => (select_meta_id (fst p) (store c'), snd p,
                        fst (parse_old_auth (snd p)),
                        snd (parse_old_auth (snd p)))) (entries oa).
Proof.
  intros Hok.
  destruct (db_import_dnb_inv _ _ _ _ _ _ _ _ _ _ _ Hok) as [d1 Hins].
  destruct (db_import_dnb_ok c dnb_id pn o1 o2 o3 o4 o5 vn oa d1 Hins)
    as (nrows & arows & Hn & Ha & Heq).
  rewrite Heq in Hok. injection Hok as <-.
  apply insert_dnb_meta_ok in Hins as [_ ->].
  exists {| dm_id := next_id (map dm_id (dnb_meta (store c)));
            dm_dnb_id := dnb_id; dm_pref_name := pn;
            dm_owl_geonames := o1; dm_owl_gnd := o2; dm_owl_loc := o3;
            dm_owl_viaf := o4; dm_owl_wikidata := o5 |}.
  match goal with |- context [commits {| store := _; commits := ?a ++ ?b ++ ?d :: _ |}] =>
    exists (a ++ b ++ [d]) end.
  cbn [store commits]. split; [now rewrite <- !app_assoc|].
  assert (Hn0 : runs vn = false -> nrows = []).
  { destruct vn as [[|]|]; try discriminate; intros _;
      now destruct nrows. }
  assert (Ha0 : runs oa = false -> arows = []).
  { destruct oa as [[|]|]; try discriminate; intros _;
      now destruct arows. }
  split; [|split; [|split; [|split]]].
  - rewrite !app_assoc, last_snoc. reflexivity.
  - destruct (runs oa) eqn:Eo; [reflexivity|]. rewrite (Ha0 eq_refl).
    destruct (runs vn) eqn:Ev; cbn; unfold set_dnb_old_auth, set_dnb_name, set_dnb_meta;
      cbn; rewrite ?app_nil_r; [reflexivity|].
    rewrite (Hn0 eq_refl), app_nil_r. reflexivity.
  - intros s Hs. rewrite !in_app_iff in Hs. cbn.
    destruct Hs as [Hs|[Hs|[<-|[]]]].
    + destruct (runs oa); [|contradiction]. destruct Hs as [<-|[]]. cbn. tauto.
    + destruct (runs vn); [|contradiction]. destruct Hs as [<-|[]]. cbn.
      destruct (runs oa) eqn:Eo; [tauto|].
      rewrite (Ha0 eq_refl), app_nil_r. tauto.
    + cbn. destruct (runs vn) eqn:Ev.
      * destruct (runs oa) eqn:Eo; [tauto|].
        rewrite (Ha0 eq_refl), app_nil_r. tauto.
      * rewrite (Hn0 eq_refl), app_nil_r.
        destruct (runs oa) eqn:Eo; [tauto|].
        rewrite (Ha0 eq_refl), app_nil_r. tauto.
  - cbn. rewrite map_app, Hn. reflexivity.
  - cbn. rewrite map_app, Ha. reflexivity.
Qed.

Lemma record_commit_points_witness :
  exists c' new,
    db_import_dnb (connect empty_db) "4066009-6" (Some "Wiesbaden")
      None None None None None
      (Some [("4066009-6", "Wisibada")])
      (Some [("4066009-6", "(DE-588)4066009-6")]) = Ok c' /\
    commits c' = new ++ [] /\
    head new = Some (store c').
Proof.
  destruct (record_commit_points (connect empty_db) "4066009-6"
              (Some "Wiesbaden") None None None None None
              (Some [("4066009-6", "Wisibada")])
              (Some [("4066009-6", "(DE-588)4066009-6")]) _ eq_refl)
    as (parent & new & Hc & _ & Hh & _).
  eexists _, new. split; [reflexivity|]. split; [exact Hc | exact Hh].
Defined.

(** C5, as stated, fails: importing the sample object writes a commit
    point that holds the parent row and none of its three children. *)
Lemma parent_committed_before_children :
  let st := json_import_dnb "dnb.json" [sample_obj] "db.sqlite"
              (connect empty_db) true in
  exists s,
    In s (commits (st_con st)) /\
    map dm_dnb_id (dnb_meta s) = ["4066009-6"] /\
    dnb_name s = [] /\
    dnb_old_auth s = [] /\
    map dn_var_name (dnb_name (store (st_con st)))
    = ["Aquae Mattiacae"; "Wisibada"] /\
    map da_number (dnb_old_auth (store (st_con st))) = ["(DE-588)4066009-6"].
Proof.
  vm_compute. eexists. split.
  - right. right. left. reflexivity.
  - repeat split.
Qed.


(** *** The loop body of [json_import_dnb] *)

Lemma existsb_dnb_id dnb_id rows :
  existsb (fun r => String.eqb (dm_dnb_id r) dnb_id) rows = true
  <-> In dnb_id (map dm_dnb_id rows).
Proof.
  rewrite existsb_exists, in_map_iff. split.
  - intros (r & Hr & E). apply String.eqb_eq in E. eauto.
  - intros (r & E & Hr). exists r. split; [easy|]. now apply String.eqb_eq.
Qed.

Lemma existsb_dnb_id_false dnb_id rows :
  ~ In dnb_id (map dm_dnb_id rows) ->
  existsb (fun r => String.eqb (dm_dnb_id r) dnb_id) rows = false.
Proof.
  intros H. destruct (existsb _ rows) eqn:E; [|reflexivity].
  now apply existsb_dnb_id in E.
Qed.

(** An object that passes the two guards reaches [db_import_dnb]. *)
Lemma import_obj_accepted db_path old_auth st o obj_id :
  obj_at_id o = Some obj_id -> accepted obj_id = true ->
  import_obj db_path old_auth st o
  = let dnb_id := strip dnb_ident obj_id in
    let owl := owl_scan (get_list o owl_key) in
    let st1 := log DEBUG (msg_importing dnb_id (st_n st)) st in
    match db_import_dnb (st_con st) dnb_id
            (get_pref_name (get_list o pref_name_key))
            (owl_geonames owl) (owl_gnd owl) (owl_loc owl)
            (owl_viaf owl) (owl_wikidata owl)
            (collect_values dnb_id (get_list o var_names_key))
            (if old_auth
             then collect_values dnb_id (get_list o old_auths_key)
             else None) with
    | Ok c =>
        let st2 := {| st_con := c; st_n := st_n st + 1; st_log := st_log st1 |} in
        if (st_n st + 1) mod 10000 =? 0
        then log INFO (msg_imported (st_n st + 1) db_path) st2
        else st2
    | Raise IntegrityError => log WARNING (msg_exists dnb_id) st1
    end.
Proof.
  intros Hid Hacc. unfold accepted in Hacc.
  apply andb_true_iff in Hacc as [Hacc Hnot].
  apply andb_true_iff in Hacc as [Ht Hs].
  unfold import_obj. rewrite Hid, Ht, Hs.
  apply negb_true_iff in Hnot. rewrite Hnot. reflexivity.
Qed.

Lemma count_dnb_id_unique dnb_id d :
  unique_ids d -> In dnb_id (map dm_dnb_id (dnb_meta d)) ->
  count_dnb_id dnb_id d = 1%nat.
Proof.
  unfold unique_ids, count_dnb_id.
  induction (dnb_meta d) as [|r rows IH]; cbn [map List.filter]; [easy|].
  intros Hnd Hin. apply NoDup_cons_iff in Hnd as [Hr Hnd].
  destruct (String.eqb_spec (dm_dnb_id r) dnb_id) as [E|E].
  - cbn [length]. f_equal. subst dnb_id.
    clear -Hr. induction rows as [|r' rows IH]; cbn [map List.filter] in *; [easy|].
    destruct (String.eqb_spec (dm_dnb_id r') (dm_dnb_id r)) as [E|E].
    + exfalso. apply Hr. now left.
    + apply IH. intros H. apply Hr. now right.
  - destruct Hin as [Hin|Hin]; [contradiction|]. now apply IH.
Qed.

(** An accepted object whose id is stored already: the INSERT raises,
    the handler logs the warning. *)
Lemma import_obj_duplicate db_path old_auth st o obj_id :
  obj_at_id o = Some obj_id ->
  accepted obj_id = true ->
  In (strip dnb_ident obj_id) (map dm_dnb_id (dnb_meta (store (st_con st)))) ->
  import_obj db_path old_auth st o
  = log WARNING (msg_exists (strip dnb_ident obj_id))
      (log DEBUG (msg_importing (strip dnb_ident obj_id) (st_n st)) st).
Proof.
  intros Hid Hacc Hin.
  rewrite (import_obj_accepted _ _ _ _ _ Hid Hacc). cbn zeta.
  unfold db_import_dnb, insert_dnb_meta. cbn [log st_con].
  apply existsb_dnb_id in Hin. now rewrite Hin.
Qed.

(** An object without [@id]: one DEBUG line, nothing else. *)
Lemma import_obj_no_id db_path old_auth st o :
  obj_at_id o = None ->
  import_obj db_path old_auth st o = log DEBUG (msg_no_id (st_n st)) st.
Proof. intros Hid. unfold import_obj. now rewrite Hid. Qed.

(** C6: an accepted object whose id is already stored leaves the store
    as it is (the earlier record stays the only one for the id), logs one
    warning that names the id, leaves the count of imported objects as it
    is, and the loop goes on with the next object. *)
Theorem duplicate_id_is_skipped db_path old_auth st o obj_id :
  obj_at_id o = Some obj_id ->
  accepted obj_id = true ->
  In (strip dnb_ident obj_id) (map dm_dnb_id (dnb_meta (store (st_con st)))) ->
  let dnb_id := strip dnb_ident obj_id in
  let st' := import_obj db_path old_auth st o in
  st_con st' = st_con st /\
  st_n st' = st_n st /\
  st_log st' = st_log st ++ [(DEBUG, msg_importing dnb_id (st_n st));
                             (WARNING, msg_exists dnb_id)] /\
  (unique_ids (store (st_con st)) ->
   count_dnb_id dnb_id (store (st_con st')) = 1%nat) /\
  (forall rest,
     fold_left (import_obj db_path old_auth) (o :: rest) st
     = fold_left (import_obj db_path old_auth) rest st').
Proof.
  intros Hid Hacc Hin dnb_id st'.
  assert (E : st' = log WARNING (msg_exists dnb_id)
                      (log DEBUG (msg_importing dnb_id (st_n st)) st)).
  { exact (import_obj_duplicate _ _ _ _ _ Hid Hacc Hin). }
  rewrite E. cbn [log st_con st_n st_log].
  repeat split.
  - now rewrite <- app_assoc.
  - intros Hu. now apply count_dnb_id_unique.
  - intros rest. cbn [fold_left]. fold st'. now rewrite E.
Qed.

Lemma duplicate_id_is_skipped_witness :
  let st := fold_left (import_obj "db.sqlite" true) [sample_obj]
              {| st_con := connect empty_db; st_n := 0; st_log := [] |} in
  let st' := import_obj "db.sqlite" true st sample_obj in
  st_con st' = st_con st /\
  st_n st' = 1 /\
  st_log st' = st_log st ++ [(DEBUG, msg_importing "4066009-6" 1);
                             (WARNING, msg_exists "4066009-6")] /\
  count_dnb_id "4066009-6" (store (st_con st')) = 1%nat.
Proof.
  intros st st'.
  destruct (duplicate_id_is_skipped "db.sqlite" true st sample_obj
              "https://d-nb.info/gnd/4066009-6" eq_refl eq_refl)
    as (Hc & Hn & Hl & Hu & _).
  - vm_compute. now left.
  - split; [exact Hc|]. split; [exact Hn|]. split; [exact Hl|].
    apply Hu. vm_compute. repeat constructor. intros [].
Defined.

(** C9, as the code has it: an object without [@id] changes neither the
    store nor the count of imported objects; the loop logs one DEBUG line
    that carries that count, keeps no count of rejected objects, and goes
    on with the next object. *)
Theorem no_id_is_skipped db_path old_auth st o :
  obj_at_id o = None ->
  let st' := import_obj db_path old_auth st o in
  st_con st' = st_con st /\
  st_n st' = st_n st /\
  st_log st' = st_log st ++ [(DEBUG, msg_no_id (st_n st))] /\
  (forall rest,
     fold_left (import_obj db_path old_auth) (o :: rest) st
     = fold_left (import_obj db_path old_auth) rest st').
Proof.
  intros Hid. cbn zeta.
  assert (E : import_obj db_path old_auth st o
              = log DEBUG (msg_no_id (st_n st)) st).
  { exact (import_obj_no_id _ _ _ _ Hid). }
  rewrite E. cbn [log st_con st_n st_log]. repeat split.
  intros rest. cbn [fold_left]. now rewrite E.
Qed.

Lemma no_id_is_skipped_witness :
  let st := {| st_con := connect empty_db; st_n := 0; st_log := [] |} in
  let st' := import_obj "db.sqlite" false st sample_no_id in
  obj_at_id sample_no_id = None /\
  st_con st' = st_con st /\ st_n st' = 0 /\
  st_log st' = [(DEBUG, msg_no_id 0)].
Proof.
  intros st st'.
  destruct (no_id_is_skipped "db.sqlite" false st sample_no_id eq_refl)
    as (Hc & Hn & Hl & _).
  split; [reflexivity|]. split; [exact Hc|]. split; [exact Hn | exact Hl].
Defined.

(** C9, as stated, fails: after a run over one object without [@id] the
    only count there is, that of imported objects, stands at 0, and the
    state holds nothing else that counts. *)
Lemma no_id_increments_nothing :
  json_import_dnb "dnb.json" [sample_no_id] "db.sqlite" (connect empty_db) false
  = {| st_con := db_open (connect empty_db);
       st_n := 0;
       st_log := [(DEBUG, msg_reading "dnb.json");
                  (DEBUG, msg_no_id 0);
                  (INFO, msg_imported 0 "db.sqlite")] |}.
Proof. reflexivity. Qed.


(** *** Objects with a new id *)

Lemma entries_collect_values dnb_id l :
  entries (collect_values dnb_id l)
  = map (fun v => (dnb_id, v)) (nonempty_values l).
Proof.
  unfold collect_values, nonempty_values.
  assert (G : forall l',
             flat_map (fun var_obj : node =>
                         match var_obj !! "@value" with
                         | Some value =>
                             if negb (PyStr.truthy (Some value)) then []
                             else [(dnb_id, value)]
                         | None => []
                         end) l'
             = map (fun v => (dnb_id, v))
                 (flat_map (fun var_obj : node =>
                              match var_obj !! "@value" with
                              | Some value =>
                                  if String.eqb value "" then [] else [value]
                              | None => []
                              end) l')).
  { induction l' as [|n l' IH]; [reflexivity|]. cbn [flat_map].
    rewrite map_app, IH. f_equal.
    destruct (n !! "@value") as [v|]; [|reflexivity].
    cbn [PyStr.truthy]. rewrite negb_involutive.
    now destruct (String.eqb v ""). }
  destruct l as [|n l]; [reflexivity|]. cbn [entries]. apply G.
Qed.

Lemma find_dnb_id_new dnb_id row rows :
  ~ In dnb_id (map dm_dnb_id rows) ->
  dm_dnb_id row = dnb_id ->
  List.find (fun r => String.eqb (dm_dnb_id r) dnb_id) (rows ++ [row])
  = Some row.
Proof.
  intros Hnew Hrow.
  induction rows as [|r rows IH]; cbn [app List.find map] in *.
  - rewrite Hrow, String.eqb_refl. reflexivity.
  - destruct (String.eqb_spec (dm_dnb_id r) dnb_id) as [E|E].
    + exfalso. apply Hnew. now left.
    + apply IH. intros H. apply Hnew. now right.
Qed.

Lemma select_meta_id_new dnb_id row d :
  ~ In dnb_id (map dm_dnb_id (dnb_meta d)) ->
  dm_dnb_id row = dnb_id ->
  select_meta_id dnb_id (set_dnb_meta (dnb_meta d ++ [row]) d)
  = Some (dm_id row).
Proof.
  intros Hnew Hrow. unfold select_meta_id. cbn [dnb_meta set_dnb_meta].
  now rewrite (find_dnb_id_new _ _ _ Hnew Hrow).
Qed.

(** What the loop body does with an accepted object whose id is new. *)
Lemma import_obj_new db_path old_auth st o obj_id :
  obj_at_id o = Some obj_id ->
  accepted obj_id = true ->
  ~ In (strip dnb_ident obj_id) (map dm_dnb_id (dnb_meta (store (st_con st)))) ->
  let dnb_id := strip dnb_ident obj_id in
  let owl := owl_scan (get_list o owl_key) in
  let d := store (st_con st) in
  let st' := import_obj db_path old_auth st o in
  let d' := store (st_con st') in
  let parent :=
    {| dm_id := next_id (map dm_id (dnb_meta d));
       dm_dnb_id := dnb_id;
       dm_pref_name := get_pref_name (get_list o pref_name_key);
       dm_owl_geonames := owl_geonames owl; dm_owl_gnd := owl_gnd owl;
       dm_owl_loc := owl_loc owl; dm_owl_viaf := owl_viaf owl;
       dm_owl_wikidata := owl_wikidata owl |} in
  st_n st' = st_n st + 1 /\
  dnb_meta d' = dnb_meta d ++ [parent] /\
  map name_cols (dnb_name d')
  = map name_cols (dnb_name d)
    ++ map (fun v => (Some (dm_id parent), v))
         (nonempty_values (get_list o var_names_key)) /\
  map old_auth_cols (dnb_old_auth d')
  = map old_auth_cols (dnb_old_auth d)
    ++ map (fun v => (Some (dm_id parent), v,
                      fst (parse_old_auth v), snd (parse_old_auth v)))
         (if old_auth
          then nonempty_values (get_list o old_auths_key)
          else []).
Proof.
  intros Hid Hacc Hnew dnb_id owl d st' d' parent.
  subst d' st'. rewrite (import_obj_accepted _ _ _ _ _ Hid Hacc). cbn zeta.
  fold dnb_id owl.
  set (vn := collect_values dnb_id (get_list o var_names_key)).
  set (oa := if old_auth then _ else None).
  assert (Hins : insert_dnb_meta dnb_id (get_pref_name (get_list o pref_name_key))
                   (owl_geonames owl) (owl_gnd owl) (owl_loc owl)
                   (owl_viaf owl) (owl_wikidata owl) d
                 = Ok (set_dnb_meta (dnb_meta d ++ [parent]) d)).
  { assert (Hex := existsb_dnb_id_false _ _ Hnew).
    change (existsb (fun r => String.eqb (dm_dnb_id r) dnb_id) (dnb_meta d)
            = false) in Hex.
    unfold insert_dnb_meta. now rewrite Hex. }
  destruct (db_import_dnb_ok (st_con st) dnb_id _ _ _ _ _ _ vn oa _ Hins)
    as (nrows & arows & Hn & Ha & Heq).
  cbn [log st_con st_n st_log]. rewrite Heq.
  assert (Hsel : select_meta_id dnb_id (set_dnb_meta (dnb_meta d ++ [parent]) d)
                 = Some (dm_id parent)).
  { now apply select_meta_id_new. }
  assert (R : forall st2 : state,
            store (st_con (if (st_n st + 1) mod 10000 =? 0
                           then log INFO (msg_imported (st_n st + 1) db_path) st2
                           else st2)) = store (st_con st2)
            /\ st_n (if (st_n st + 1) mod 10000 =? 0
                     then log INFO (msg_imported (st_n st + 1) db_path) st2
                     else st2) = st_n st2).
  { intros st2. now destruct (_ =? 0). }
  match goal with |- context [if _ then log _ _ ?s else _] =>
    destruct (R s) as [-> ->] end.
  cbn [store st_con st_n dnb_meta dnb_name dnb_old_auth
       set_dnb_meta set_dnb_name set_dnb_old_auth].
  split; [reflexivity|]. split; [reflexivity|]. split.
  - rewrite map_app, Hn. subst vn. rewrite entries_collect_values, map_map.
    cbn [fst snd]. now rewrite Hsel.
  - rewrite map_app, Ha. f_equal.
    replace (entries oa)
      with (map (fun v => (dnb_id, v))
              (if old_auth then nonempty_values (get_list o old_auths_key) else [])).
    + rewrite map_map. cbn [fst snd]. now rewrite Hsel.
    + subst oa. destruct old_auth; [|reflexivity].
      now rewrite entries_collect_values.
Qed.


(** C10: for an accepted object with a new id the parent row is
    inserted, and the child rows are those of the entries with a
    non-empty [@value], in list order, each attached to the parent; an
    entry whose [@value] is absent or empty adds no row.  Old authority
    numbers are read only when the run asks for them. *)
Theorem empty_values_add_no_row db_path old_auth st o obj_id :
  obj_at_id o = Some obj_id ->
  accepted obj_id = true ->
  ~ In (strip dnb_ident obj_id) (map dm_dnb_id (dnb_meta (store (st_con st)))) ->
  let d := store (st_con st) in
  let d' := store (st_con (import_obj db_path old_auth st o)) in
  exists parent,
    dnb_meta d' = dnb_meta d ++ [parent] /\
    dm_dnb_id parent = strip dnb_ident obj_id /\
    map name_cols (dnb_name d')
    = map name_cols (dnb_name d)
      ++ map (fun v => (Some (dm_id parent), v))
           (nonempty_values (get_list o var_names_key)) /\
    map (fun r => (da_dnb_meta_id r, da_number r)) (dnb_old_auth d')
    = map (fun r => (da_dnb_meta_id r, da_number r)) (dnb_old_auth d)
      ++ map (fun v => (Some (dm_id parent), v))
           (if old_auth
            then nonempty_values (get_list o old_auths_key)
            else []).
Proof.
  intros Hid Hacc Hnew d d'.
  destruct (import_obj_new db_path old_auth st o obj_id Hid Hacc Hnew)
    as (_ & Hm & Hn & Ha).
  eexists. split; [exact Hm|]. split; [reflexivity|]. split; [exact Hn|].
  apply (f_equal (map (fun x : option Z * string * option string * option string =>
                         let '(i, n, _, _) := x in (i, n)))) in Ha.
  rewrite map_app, !map_map in Ha. exact Ha.
Qed.

Lemma empty_values_add_no_row_witness :
  let st := {| st_con := connect empty_db; st_n := 0; st_log := [] |} in
  let d' := store (st_con (import_obj "db.sqlite" true st sample_obj)) in
  exists parent,
    dnb_meta d' = [parent] /\
    map name_cols (dnb_name d')
    = [(Some (dm_id parent), "Aquae Mattiacae");
       (Some (dm_id parent), "Wisibada")] /\
    map (fun r => (da_dnb_meta_id r, da_number r)) (dnb_old_auth d')
    = [(Some (dm_id parent), "(DE-588)4066009-6")].
Proof.
  intros st d'.
  destruct (empty_values_add_no_row "db.sqlite" true st sample_obj
              "https://d-nb.info/gnd/4066009-6" eq_refl eq_refl)
    as (parent & Hm & _ & Hn & Ha).
  - vm_compute. intros [].
  - exists parent. split; [exact Hm|]. split; [exact Hn | exact Ha].
Defined.

(** The uniqueness of [dnb_id] is kept by every step of the loop. *)
Lemma import_obj_unique_ids db_path old_auth st o :
  unique_ids (store (st_con st)) ->
  unique_ids (store (st_con (import_obj db_path old_auth st o))).
Proof.
  intros Hu.
  destruct (obj_at_id o) as [obj_id|] eqn:Hid.
  2:{ now rewrite (import_obj_no_id _ _ _ _ Hid). }
  destruct (accepted obj_id) eqn:Hacc.
  - destruct (in_dec string_dec (strip dnb_ident obj_id)
                (map dm_dnb_id (dnb_meta (store (st_con st))))) as [Hin|Hnew].
    + now rewrite (import_obj_duplicate _ _ _ _ _ Hid Hacc Hin).
    + destruct (import_obj_new db_path old_auth st o obj_id Hid Hacc Hnew)
        as (_ & Hm & _).
      unfold unique_ids. rewrite Hm, map_app. cbn [map].
      apply (List.NoDup_Add (a := strip dnb_ident obj_id) (l := map dm_dnb_id (dnb_meta (store (st_con st))))).
      * rewrite <- (app_nil_r (map dm_dnb_id _)) at 1. apply Add_app.
      * split; assumption.
  - unfold import_obj. rewrite Hid. unfold accepted in Hacc.
    destruct (PyStr.truthy (Some obj_id)); [|exact Hu].
    destruct (PyStr.startswith obj_id dnb_ident); [|exact Hu].
    cbn in Hacc. apply negb_false_iff in Hacc. rewrite Hacc. exact Hu.
Qed.


(** *** The same-as identifiers *)

Lemma assign_if_match owl_value ident x (owl_obj : node) :
  owl_obj !! "@id" = Some owl_value ->
  assign_if owl_value ident x
  = match namespace_match ident owl_obj with
    | Some y => Some y
    | None => x
    end.
Proof.
  intros E. unfold assign_if, namespace_match. rewrite E.
  now destruct (PyStr.startswith owl_value ident).
Qed.

(** No namespace prefix is the empty string, so an empty IRI lies in none. *)
Lemma namespace_match_empty ident (owl_obj : node) :
  ident <> "" -> owl_obj !! "@id" = Some "" ->
  namespace_match ident owl_obj = None.
Proof.
  intros Hne E. unfold namespace_match. rewrite E.
  destruct ident; [contradiction|]. reflexivity.
Qed.

Section SameAs.

Variable ident : string.
Variable field : owl_ids -> option string.
Hypothesis ident_nonempty : ident <> "".
Hypothesis field_step :
  forall acc (owl_obj : node) owl_value,
    owl_obj !! "@id" = Some owl_value ->
    PyStr.truthy (Some owl_value) = true ->
    field (owl_step acc owl_obj) = assign_if owl_value ident (field acc).
Hypothesis field_skip :
  forall acc (owl_obj : node),
    (owl_obj !! "@id" = None \/ owl_obj !! "@id" = Some "") ->
    field (owl_step acc owl_obj) = field acc.

Lemma field_owl_step acc owl_obj :
  field (owl_step acc owl_obj)
  = match namespace_match ident owl_obj with
    | Some y => Some y
    | None => field acc
    end.
Proof.
  destruct (owl_obj !! "@id") as [v|] eqn:E.
  - destruct (String.eqb_spec v "") as [->|Hv].
    + rewrite (namespace_match_empty _ _ ident_nonempty E). auto.
    + rewrite (field_step acc owl_obj v E).
      * now apply assign_if_match.
      * cbn. apply String.eqb_neq in Hv. now rewrite Hv.
  - rewrite field_skip by auto. unfold namespace_match. now rewrite E.
Qed.

Lemma field_fold owl_list acc :
  field (fold_left owl_step owl_list acc)
  = match last_match ident owl_list with
    | Some y => Some y
    | None => field acc
    end.
Proof.
  unfold last_match. revert acc.
  induction owl_list as [|n l IH]; intro acc; [reflexivity|].
  cbn [fold_left]. rewrite IH, field_owl_step.
  change (omap (namespace_match ident) (n :: l))
    with (match namespace_match ident n with
          | Some y => y :: omap (namespace_match ident) l
          | None => omap (namespace_match ident) l
          end).
  destruct (namespace_match ident n) as [y|]; [|reflexivity].
  rewrite last_cons. now destruct (last _).
Qed.

End SameAs.

Lemma owl_step_skip acc (owl_obj : node) :
  owl_obj !! "@id" = None \/ owl_obj !! "@id" = Some "" ->
  owl_step acc owl_obj = acc.
Proof. unfold owl_step. now intros [-> | ->]. Qed.

Lemma owl_step_truthy acc (owl_obj : node) owl_value :
  owl_obj !! "@id" = Some owl_value ->
  PyStr.truthy (Some owl_value) = true ->
  owl_step acc owl_obj
  = {| owl_geonames :=
         assign_if owl_value owl_geonames_ident (owl_geonames acc);
       owl_gnd := assign_if owl_value owl_gnd_ident (owl_gnd acc);
       owl_loc := assign_if owl_value owl_loc_ident (owl_loc acc);
       owl_viaf := assign_if owl_value owl_viaf_ident (owl_viaf acc);
       owl_wikidata :=
         assign_if owl_value owl_wikidata_ident (owl_wikidata acc) |}.
Proof. unfold owl_step. now intros -> ->. Qed.

Ltac same_as_field ident field :=
  unfold owl_scan; rewrite (field_fold ident field);
  [ now destruct (last_match _ _)
  | discriminate
  | intros acc n v E T; now rewrite (owl_step_truthy acc n v E T)
  | intros acc n E; now rewrite (owl_step_skip acc n E) ].

(** C2, as the code has it: each of the five identifiers is taken from
    the last entry of the list whose IRI lies in its namespace, and is
    null when there is none; an entry whose IRI lies in none of the five
    namespaces changes none of the identifiers. *)
Theorem same_as_last_match_wins :
  (forall owl_list,
     owl_geonames (owl_scan owl_list) = last_match owl_geonames_ident owl_list /\
     owl_gnd (owl_scan owl_list) = last_match owl_gnd_ident owl_list /\
     owl_loc (owl_scan owl_list) = last_match owl_loc_ident owl_list /\
     owl_viaf (owl_scan owl_list) = last_match owl_viaf_ident owl_list /\
     owl_wikidata (owl_scan owl_list)
     = last_match owl_wikidata_ident owl_list) /\
  (forall acc owl_obj,
     namespace_match owl_geonames_ident owl_obj = None ->
     namespace_match owl_gnd_ident owl_obj = None ->
     namespace_match owl_loc_ident owl_obj = None ->
     namespace_match owl_viaf_ident owl_obj = None ->
     namespace_match owl_wikidata_ident owl_obj = None ->
     owl_step acc owl_obj = acc) /\
  (forall db_path old_auth st o obj_id,
     obj_at_id o = Some obj_id ->
     accepted obj_id = true ->
     ~ In (strip dnb_ident obj_id)
          (map dm_dnb_id (dnb_meta (store (st_con st)))) ->
     exists parent,
       dnb_meta (store (st_con (import_obj db_path old_auth st o)))
       = dnb_meta (store (st_con st)) ++ [parent] /\
       dm_owl_geonames parent
       = last_match owl_geonames_ident (get_list o owl_key) /\
       dm_owl_gnd parent = last_match owl_gnd_ident (get_list o owl_key) /\
       dm_owl_loc parent = last_match owl_loc_ident (get_list o owl_key) /\
       dm_owl_viaf parent = last_match owl_viaf_ident (get_list o owl_key) /\
       dm_owl_wikidata parent
       = last_match owl_wikidata_ident (get_list o owl_key)).
Proof.
  assert (S : forall owl_list,
     owl_geonames (owl_scan owl_list) = last_match owl_geonames_ident owl_list /\
     owl_gnd (owl_scan owl_list) = last_match owl_gnd_ident owl_list /\
     owl_loc (owl_scan owl_list) = last_match owl_loc_ident owl_list /\
     owl_viaf (owl_scan owl_list) = last_match owl_viaf_ident owl_list /\
     owl_wikidata (owl_scan owl_list)
     = last_match owl_wikidata_ident owl_list).
  { intros owl_list. repeat split.
    + same_as_field owl_geonames_ident owl_geonames.
    + same_as_field owl_gnd_ident owl_gnd.
    + same_as_field owl_loc_ident owl_loc.
    + same_as_field owl_viaf_ident owl_viaf.
    + same_as_field owl_wikidata_ident owl_wikidata. }
  split; [exact S|]. split.
  2:{ intros db_path old_auth st o obj_id Hid Hacc Hnew.
      destruct (import_obj_new db_path old_auth st o obj_id Hid Hacc Hnew)
        as (_ & Hm & _).
      eexists. split; [exact Hm|]. cbn [dm_owl_geonames dm_owl_gnd dm_owl_loc
                                        dm_owl_viaf dm_owl_wikidata].
      apply S. }
  - intros acc n H1 H2 H3 H4 H5.
    destruct (n !! "@id") as [v|] eqn:E; [|now apply owl_step_skip; left].
    destruct (PyStr.truthy (Some v)) eqn:T.
    + rewrite (owl_step_truthy acc n v E T).
      rewrite !(assign_if_match v _ _ n E), H1, H2, H3, H4, H5.
      now destruct acc.
    + apply owl_step_skip. right. rewrite E. f_equal.
      cbn in T. apply negb_false_iff in T. now apply String.eqb_eq.
Qed.

Lemma same_as_last_match_wins_witness :
  let other : node := {[ "@id" := "http://example.org/wiesbaden" ]} in
  owl_step (owl_scan (get_list sample_obj owl_key)) other
  = owl_scan (get_list sample_obj owl_key) /\
  owl_geonames (owl_scan (get_list sample_obj owl_key)) = Some "6556969".
Proof.
  intros other. split.
  - apply (proj1 (proj2 same_as_last_match_wins)); reflexivity.
  - rewrite (proj1 (proj1 same_as_last_match_wins _)). reflexivity.
Defined.

(** C2, as stated, fails: of the two geonames links of the sample object
    the stored identifier is that of the second, not of the first. *)
Lemma same_as_first_match_loses :
  let st := json_import_dnb "dnb.json" [sample_obj] "db.sqlite"
              (connect empty_db) false in
  map dm_owl_geonames (dnb_meta (store (st_con st))) = [Some "6556969"] /\
  first_match owl_geonames_ident (get_list sample_obj owl_key)
  = Some "2809346".
Proof. split; reflexivity. Qed.


End ImporterFacts.

(** ** fuzzy.py *)

Module FuzzyFacts.
Import Sqlite Fuzzy.

Local Open Scope Q_scope.

(** *** Rounding of the threshold *)

Lemma round_half_even_near x :
  inject_Z (round_half_even x) - (1 # 2) <= x
  /\ x <= inject_Z (round_half_even x) + (1 # 2).
Proof.
  unfold round_half_even.
  pose proof (Qfloor_le x) as Hlo. pose proof (Qlt_floor x) as Hhi.
  rewrite inject_Z_plus in Hhi. change (inject_Z 1) with 1 in Hhi.
  destruct (Qcompare_spec (x - inject_Z (Qfloor x)) (1 # 2)) as [E|L|G].
  - destruct (Z.even (Qfloor x)); rewrite ?inject_Z_plus;
      change (inject_Z 1) with 1; lra.
  - lra.
  - rewrite inject_Z_plus. change (inject_Z 1) with 1. lra.
Qed.

Lemma round_half_even_tie x :
  x == inject_Z (round_half_even x) - (1 # 2)
  \/ x == inject_Z (round_half_even x) + (1 # 2) ->
  Z.even (round_half_even x) = true.
Proof.
  unfold round_half_even.
  pose proof (Qfloor_le x) as Hlo. pose proof (Qlt_floor x) as Hhi.
  rewrite inject_Z_plus in Hhi. change (inject_Z 1) with 1 in Hhi.
  destruct (Qcompare_spec (x - inject_Z (Qfloor x)) (1 # 2)) as [E|L|G].
  - destruct (Z.even (Qfloor x)) eqn:Ev; [easy|]. intros _.
    rewrite Z.even_add, Ev. reflexivity.
  - intros [H|H]; lra.
  - rewrite inject_Z_plus. change (inject_Z 1) with 1. intros [H|H]; lra.
Qed.

Lemma round_half_even_mono x y :
  x <= y -> (round_half_even x <= round_half_even y)%Z.
Proof.
  intros Hxy.
  destruct (Z_le_gt_dec (round_half_even x) (round_half_even y)) as [|Hgt];
    [assumption|exfalso].
  destruct (round_half_even_near x) as [Hx _].
  destruct (round_half_even_near y) as [_ Hy].
  assert (Hz : (round_half_even y + 1 <= round_half_even x)%Z) by lia.
  rewrite Zle_Qle, inject_Z_plus in Hz. change (inject_Z 1) with 1 in Hz.
  assert (Ex : x == inject_Z (round_half_even x) - (1 # 2)) by lra.
  assert (Ey : y == inject_Z (round_half_even y) + (1 # 2)) by lra.
  assert (Hk : inject_Z (round_half_even x) == inject_Z (round_half_even y) + 1)
    by lra.
  assert (Hk' : round_half_even x = (round_half_even y + 1)%Z).
  { apply inject_Z_injective. rewrite inject_Z_plus. exact Hk. }
  pose proof (round_half_even_tie x (or_introl Ex)) as Evx.
  pose proof (round_half_even_tie y (or_intror Ey)) as Evy.
  rewrite Hk', Z.even_add, Evy in Evx. discriminate Evx.
Qed.

Lemma format_5f_mono t1 t2 : t1 <= t2 -> format_5f t1 <= format_5f t2.
Proof.
  intros H. unfold format_5f.
  assert (Hm : (round_half_even (t1 * 100000) <= round_half_even (t2 * 100000))%Z).
  { apply round_half_even_mono. lra. }
  rewrite Zle_Qle in Hm.
  apply Qmult_le_compat_r; [exact Hm|]. discriminate.
Qed.

Example format_5f_default : format_5f (8 # 10) = 80000 # 100000.
Proof. reflexivity. Qed.

Example format_5f_sixth_decimal : format_5f (800004 # 1000000) = 80000 # 100000.
Proof. reflexivity. Qed.

Example format_5f_tie_to_even : format_5f (1 # 64) = 1562 # 100000.
Proof. reflexivity. Qed.

(** A threshold of at most five decimals is its own literal. *)
Lemma format_5f_exact (k : Z) : format_5f (k # 100000) == k # 100000.
Proof.
  unfold format_5f.
  assert (E : (k # 100000) * 100000 == inject_Z k).
  { unfold Qeq, Qmult, inject_Z. cbn. lia. }
  assert (R : round_half_even ((k # 100000) * 100000) = k).
  { assert (F : Qfloor ((k # 100000) * 100000) = k)
      by (rewrite E; apply Qfloor_Z).
    unfold round_half_even. rewrite F.
    destruct (Qcompare_spec ((k # 100000) * 100000 - inject_Z k) (1 # 2))
      as [H|H|H]; [lra | reflexivity | lra]. }
  rewrite R. unfold Qeq, Qdiv, Qmult, Qinv, inject_Z. cbn. lia.
Qed.


(** *** The literal as a binary64 number *)

Lemma round_half_even_compat x y :
  x == y -> round_half_even x = round_half_even y.
Proof.
  intros E. unfold round_half_even.
  assert (F : Qfloor x = Qfloor y) by now rewrite E.
  rewrite F.
  assert (C : (x - inject_Z (Qfloor y) ?= 1 # 2) = (y - inject_Z (Qfloor y) ?= 1 # 2))
    by now rewrite E.
  now rewrite C.
Qed.

Lemma round_half_even_Z (k : Z) : round_half_even (inject_Z k) = k.
Proof.
  unfold round_half_even. rewrite Qfloor_Z.
  destruct (Qcompare_spec (inject_Z k - inject_Z k) (1 # 2)) as [H|H|H];
    [lra | reflexivity | lra].
Qed.

Lemma pow2_pos k : 0 < 2 ^ k.
Proof. apply Qpower_0_lt. reflexivity. Qed.

Lemma pow2_Z k : (0 <= k)%Z -> 2 ^ k == inject_Z (2 ^ k).
Proof. intros H. now rewrite Zpower_Qpower. Qed.

Lemma pow2_le a b : (a <= b)%Z -> 2 ^ a <= 2 ^ b.
Proof. intros H. apply Qpower_le_compat_l; [exact H | discriminate]. Qed.

Lemma pow2_lt a b : (a < b)%Z -> 2 ^ a < 2 ^ b.
Proof. intros H. apply Qpower_lt_compat_l; [exact H | reflexivity]. Qed.

(** A power of two is a whole multiple of every smaller one. *)
Lemma pow2_multiple a b :
  (b <= a)%Z -> 2 ^ a == inject_Z (2 ^ (a - b)) * 2 ^ b.
Proof.
  intros H. rewrite <- pow2_Z by lia. rewrite <- Qpower_plus by discriminate.
  now replace (a - b + b)%Z with a by lia.
Qed.

Lemma floor_log2_spec x :
  0 < x -> 2 ^ floor_log2 x <= x /\ x < 2 ^ (floor_log2 x + 1).
Proof.
  intros Hx. unfold floor_log2.
  destruct (Qle_bool 1 x) eqn:L.
  - apply Qle_bool_iff in L.
    assert (Hf : (1 <= Qfloor x)%Z).
    { change 1%Z with (Qfloor 1). now apply Qfloor_resp_le. }
    destruct (Z.log2_spec (Qfloor x)) as [Hlo Hhi]; [lia|].
    pose proof (Z.log2_nonneg (Qfloor x)) as Hn.
    rewrite !pow2_Z by lia. split.
    + apply Qle_trans with (inject_Z (Qfloor x)); [now rewrite <- Zle_Qle|].
      apply Qfloor_le.
    + apply Qlt_le_trans with (inject_Z (Qfloor x + 1)); [apply Qlt_floor|].
      rewrite <- Zle_Qle. rewrite <- Z.add_1_r in Hhi. lia.
  - assert (L' : x < 1).
    { apply Qnot_le_lt. intros H. apply Qle_bool_iff in H. congruence. }
    assert (Hy : 1 < / x).
    { apply Qlt_shift_inv_l; [exact Hx | lra]. }
    set (y := / x) in *.
    assert (Hc : (2 <= Qceiling y)%Z).
    { assert (H1 : inject_Z 1 < inject_Z (Qceiling y)).
      { apply Qlt_le_trans with y; [exact Hy | apply Qle_ceiling]. }
      rewrite <- Zlt_Qlt in H1. lia. }
    destruct (Z.log2_up_spec (Qceiling y)) as [Hlo Hhi]; [lia|].
    set (m := Z.log2_up (Qceiling y)) in *.
    assert (Hm : (1 <= m)%Z).
    { destruct (Z.le_gt_cases 1 m) as [|Hm0]; [assumption|].
      assert (m <= 0)%Z by lia.
      assert (2 ^ m <= 2 ^ 0)%Z by (apply Z.pow_le_mono_r; lia).
      change (2 ^ 0)%Z with 1%Z in *. lia. }
    assert (Hyx : x == / y) by (subst y; now rewrite Qinv_involutive).
    assert (Hy0 : 0 < y) by lra.
    split.
    + rewrite Qpower_opp, pow2_Z by lia. rewrite Hyx.
      assert (Hle : y <= inject_Z (2 ^ m)).
      { apply Qle_trans with (inject_Z (Qceiling y)); [apply Qle_ceiling|].
        now rewrite <- Zle_Qle. }
      assert (Hp : 0 < inject_Z (2 ^ m)) by lra.
      apply Qle_shift_inv_l; [exact Hy0|].
      rewrite Qmult_comm. apply Qle_shift_div_r; [exact Hp|]. lra.
    + replace (- m + 1)%Z with (- (m - 1))%Z by lia.
      rewrite Qpower_opp, pow2_Z by lia. rewrite Hyx.
      assert (Hlt : inject_Z (2 ^ (m - 1)) < y).
      { apply Qle_lt_trans with (inject_Z (Qceiling y - 1)); [|apply Qceiling_lt].
        rewrite <- Zle_Qle. replace (Z.pred m) with (m - 1)%Z in Hlo by lia. lia. }
      assert (Hp : 0 < inject_Z (2 ^ (m - 1))).
      { rewrite <- pow2_Z by lia. apply pow2_pos. }
      now apply -> Qinv_lt_contravar.
Qed.

Lemma floor_log2_mono x y : 0 < x -> x <= y -> (floor_log2 x <= floor_log2 y)%Z.
Proof.
  intros Hx Hxy.
  destruct (floor_log2_spec x Hx) as [Hlo _].
  destruct (floor_log2_spec y) as [_ Hhi]; [lra|].
  assert (H : 2 ^ floor_log2 x < 2 ^ (floor_log2 y + 1)) by lra.
  apply Qpower_lt_compat_l_inv in H; [lia | reflexivity].
Qed.

Lemma ulp_pos x : 0 < ulp x.
Proof. apply pow2_pos. Qed.

Lemma to_double_le_multiple x B k :
  x <= B -> B == inject_Z k * ulp x -> to_double x <= B.
Proof.
  intros Hx HB. unfold to_double. pose proof (ulp_pos x) as Hu.
  rewrite HB. apply Qmult_le_compat_r; [|lra].
  rewrite <- Zle_Qle. rewrite <- (round_half_even_Z k).
  apply round_half_even_mono. apply Qle_shift_div_r; [exact Hu|]. lra.
Qed.

Lemma to_double_ge_multiple y B k :
  B <= y -> B == inject_Z k * ulp y -> B <= to_double y.
Proof.
  intros Hy HB. unfold to_double. pose proof (ulp_pos y) as Hu.
  rewrite HB. apply Qmult_le_compat_r; [|lra].
  rewrite <- Zle_Qle. rewrite <- (round_half_even_Z k) at 1.
  apply round_half_even_mono. apply Qle_shift_div_l; [exact Hu|]. lra.
Qed.

(** Reading a literal as binary64 keeps the order. *)
Lemma to_double_mono x y : x <= y -> to_double x <= to_double y.
Proof.
  intros Hxy.
  destruct (Z.eq_dec (ulp_exp x) (ulp_exp y)) as [E|NE].
  { unfold to_double, ulp. rewrite E. pose proof (pow2_pos (ulp_exp y)) as Hu.
    apply Qmult_le_compat_r; [|lra]. rewrite <- Zle_Qle.
    apply round_half_even_mono. unfold Qdiv.
    apply Qmult_le_compat_r; [exact Hxy|]. apply Qlt_le_weak.
    now apply Qinv_lt_0_compat. }
  assert (M : forall a b B ka kb,
             a <= B -> B <= b -> B == inject_Z ka * ulp a ->
             B == inject_Z kb * ulp b -> to_double a <= to_double b).
  { intros a b B ka kb H1 H2 H3 H4.
    apply Qle_trans with B;
      [eapply to_double_le_multiple | eapply to_double_ge_multiple]; eauto. }
  destruct (Qlt_le_dec 0 x) as [Hx|Hx].
  - (* both positive *)
    assert (Hy : 0 < y) by lra.
    assert (Ax : Qabs x == x) by (apply Qabs_pos; lra).
    assert (Ay : Qabs y == y) by (apply Qabs_pos; lra).
    destruct (floor_log2_spec (Qabs x)) as [_ Hxh]; [lra|].
    destruct (floor_log2_spec (Qabs y)) as [Hyl _]; [lra|].
    assert (Hm : (floor_log2 (Qabs x) <= floor_log2 (Qabs y))%Z)
      by (apply floor_log2_mono; lra).
    unfold ulp_exp in NE.
    set (lx := floor_log2 (Qabs x)) in *. set (ly := floor_log2 (Qabs y)) in *.
    assert (Hl : (lx + 1 <= ly /\ -1022 < ly)%Z) by lia.
    apply (M x y (2 ^ ly) (2 ^ (ly - ulp_exp x))%Z (2 ^ (ly - ulp_exp y))%Z).
    + pose proof (pow2_le (lx + 1) ly (proj1 Hl)). lra.
    + lra.
    + apply pow2_multiple. unfold ulp_exp. fold lx. lia.
    + apply pow2_multiple. unfold ulp_exp. fold ly. lia.
  - destruct (Qlt_le_dec y 0) as [Hy|Hy].
    + (* both negative *)
      assert (Ax : Qabs x == - x) by (apply Qabs_neg; lra).
      assert (Ay : Qabs y == - y) by (apply Qabs_neg; lra).
      destruct (floor_log2_spec (Qabs x)) as [Hxl _]; [lra|].
      destruct (floor_log2_spec (Qabs y)) as [_ Hyh]; [lra|].
      assert (Hm : (floor_log2 (Qabs y) <= floor_log2 (Qabs x))%Z)
        by (apply floor_log2_mono; lra).
      unfold ulp_exp in NE.
      set (lx := floor_log2 (Qabs x)) in *. set (ly := floor_log2 (Qabs y)) in *.
      assert (Hl : (ly + 1 <= lx /\ -1022 < lx)%Z) by lia.
      assert (N : forall e, (e <= lx)%Z ->
                  - 2 ^ lx == inject_Z (- 2 ^ (lx - e)) * 2 ^ e).
      { intros e He. rewrite (pow2_multiple lx e He) at 1.
        rewrite inject_Z_opp. ring. }
      apply (M x y (- 2 ^ lx) (- 2 ^ (lx - ulp_exp x))%Z (- 2 ^ (lx - ulp_exp y))%Z).
      * lra.
      * pose proof (pow2_le (ly + 1) lx (proj1 Hl)). lra.
      * apply N. unfold ulp_exp. fold lx. lia.
      * apply N. unfold ulp_exp. fold ly. lia.
    + (* zero in between *)
      apply (M x y 0 0%Z 0%Z); [exact Hx | exact Hy | ring | ring].
Qed.

Lemma to_double_compat x y : x == y -> to_double x == to_double y.
Proof.
  intros E. apply Qle_antisym; apply to_double_mono; rewrite E; apply Qle_refl.
Qed.

Lemma to_double_near x :
  x - ulp x * (1 # 2) <= to_double x /\ to_double x <= x + ulp x * (1 # 2).
Proof.
  unfold to_double. pose proof (ulp_pos x) as Hu.
  destruct (round_half_even_near (x / ulp x)) as [Hlo Hhi].
  set (k := inject_Z (round_half_even (x / ulp x))) in *.
  assert (E : x == x / ulp x * ulp x) by (field; lra).
  split.
  - assert (H : (x / ulp x - (1 # 2)) * ulp x <= k * ulp x)
      by (apply Qmult_le_compat_r; lra).
    rewrite E at 1. lra.
  - assert (H : k * ulp x <= (x / ulp x + (1 # 2)) * ulp x)
      by (apply Qmult_le_compat_r; lra).
    rewrite E at 2. lra.
Qed.

Example to_double_0_7 : to_double (7 # 10) == float_0_7.
Proof. vm_compute. reflexivity. Qed.

Example to_double_0_8 : to_double (8 # 10) == float_0_8.
Proof. vm_compute. reflexivity. Qed.

Example float_0_7_below_decimal : float_0_7 < 7 # 10.
Proof. reflexivity. Qed.

(** *** The two queries *)

Lemma in_query_meta ext t d row :
  In row (query_meta ext t d) <->
  exists dr gr x,
    In dr (dnb_meta d) /\ In gr (gaz_meta d) /\
    meta_jw ext dr gr = Some x /\ to_double (format_5f t) <= x /\
    row = {| fz_dnb := dm_id dr; fz_gaz := gm_id gr; fz_jarow := x |}.
Proof.
  unfold query_meta. rewrite in_flat_map. split.
  - intros (dr & Hdr & Hrow). apply in_flat_map in Hrow as (gr & Hgr & Hrow).
    unfold select_meta in Hrow.
    destruct (meta_jw ext dr gr) as [x|] eqn:E; [|contradiction].
    cbn [where_ge] in Hrow.
    destruct (Qle_bool (to_double (format_5f t)) x) eqn:L; [|contradiction].
    destruct Hrow as [<-|[]]. apply Qle_bool_iff in L.
    exists dr, gr, x. auto.
  - intros (dr & gr & x & Hdr & Hgr & E & L & ->).
    exists dr. split; [exact Hdr|]. apply in_flat_map. exists gr.
    split; [exact Hgr|]. unfold select_meta. rewrite E. cbn [where_ge].
    apply Qle_bool_iff in L. rewrite L. now left.
Qed.

Lemma in_query_names ext t d row :
  In row (query_names ext t d) <->
  exists dr gr x,
    In dr (dnb_name d) /\ In gr (gaz_name d) /\
    names_jw ext dr gr = Some x /\ to_double (format_5f t) <= x /\
    row = {| fz_dnb := dn_id dr; fz_gaz := gn_id gr; fz_jarow := x |}.
Proof.
  unfold query_names. rewrite in_flat_map. split.
  - intros (dr & Hdr & Hrow). apply in_flat_map in Hrow as (gr & Hgr & Hrow).
    unfold select_names in Hrow.
    destruct (names_jw ext dr gr) as [x|] eqn:E; [|contradiction].
    cbn [where_ge] in Hrow.
    destruct (Qle_bool (to_double (format_5f t)) x) eqn:L; [|contradiction].
    destruct Hrow as [<-|[]]. apply Qle_bool_iff in L.
    exists dr, gr, x. auto.
  - intros (dr & gr & x & Hdr & Hgr & E & L & ->).
    exists dr. split; [exact Hdr|]. apply in_flat_map. exists gr.
    split; [exact Hgr|]. unfold select_names. rewrite E. cbn [where_ge].
    apply Qle_bool_iff in L. rewrite L. now left.
Qed.

(** C1, as the code has it: both matchers append to their table the
    pairs of the cross product whose score is not NULL and is at least
    the threshold as the query carries it: rounded to five decimals in
    the query text, and that literal read by SQLite as the nearest
    binary64 number.  The comparison is [>=] for names as it is for
    meta, so a score equal to that number is stored by both. *)
Theorem both_matchers_keep_at_threshold ext c t :
  fuzzy_meta (store (db_fuzzy_match_meta ext c t))
  = fuzzy_meta (store c) ++ query_meta ext t (store c) /\
  fuzzy_name (store (db_fuzzy_match_names ext c t))
  = fuzzy_name (store c) ++ query_names ext t (store c) /\
  (forall row,
     In row (query_meta ext t (store c)) <->
     exists dr gr x,
       In dr (dnb_meta (store c)) /\ In gr (gaz_meta (store c)) /\
       meta_jw ext dr gr = Some x /\ to_double (format_5f t) <= x /\
       row = {| fz_dnb := dm_id dr; fz_gaz := gm_id gr; fz_jarow := x |}) /\
  (forall row,
     In row (query_names ext t (store c)) <->
     exists dr gr x,
       In dr (dnb_name (store c)) /\ In gr (gaz_name (store c)) /\
       names_jw ext dr gr = Some x /\ to_double (format_5f t) <= x /\
       row = {| fz_dnb := dn_id dr; fz_gaz := gn_id gr; fz_jarow := x |}).
Proof.
  split; [reflexivity|]. split; [reflexivity|]. split.
  - intros row. apply in_query_meta.
  - intros row. apply in_query_names.
Qed.

Lemma both_matchers_keep_at_threshold_witness :
  to_double (format_5f float_0_7) == float_0_7 /\
  In {| fz_dnb := 1; fz_gaz := 1; fz_jarow := float_0_7 |}
     (query_names (scoring_ext float_0_7) float_0_7 (store (connect sample_db))) /\
  In {| fz_dnb := 1; fz_gaz := 1; fz_jarow := float_0_7 |}
     (query_meta (scoring_ext float_0_7) float_0_7 (store (connect sample_db))).
Proof.
  assert (E : to_double (format_5f float_0_7) == float_0_7)
    by (vm_compute; reflexivity).
  destruct (both_matchers_keep_at_threshold (scoring_ext float_0_7)
              (connect sample_db) float_0_7) as (_ & _ & Hm & Hn).
  split; [exact E|]. split.
  - refine (proj2 (Hn _) _).
    exists {| dn_id := 1%Z; dn_dnb_meta_id := Some 1%Z;
              dn_var_name := "Wisibada" |},
           {| gn_id := 1; gn_gaz_id := "2181496"; gn_title := Some "Wisibada" |},
           float_0_7.
    split; [left; reflexivity|]. split; [left; reflexivity|].
    split; [reflexivity|]. split; [|reflexivity].
    rewrite E. apply Qle_refl.
  - refine (proj2 (Hm _) _).
    exists {| dm_id := 1; dm_dnb_id := "4066009-6";
              dm_pref_name := Some "Wiesbaden";
              dm_owl_geonames := None; dm_owl_gnd := None; dm_owl_loc := None;
              dm_owl_viaf := None; dm_owl_wikidata := None |},
           {| gm_id := 1; gm_gaz_id := "2181496";
              gm_pref_title := Some "Wiesbaden" |},
           float_0_7.
    split; [left; reflexivity|]. split; [left; reflexivity|].
    split; [reflexivity|]. split; [|reflexivity].
    rewrite E. apply Qle_refl.
Defined.

(** C1, as stated, fails: at threshold 1 the names matcher, called after
    [db_init], stores the pair of equal names, whose score is exactly 1
    and not above it. *)
Lemma names_matcher_keeps_equal_score :
  let c := db_fuzzy_match_names sample_ext (db_init (connect sample_db)) 1 in
  fuzzy_name (store c) = [{| fz_dnb := 1; fz_gaz := 1; fz_jarow := 1 |}] /\
  ~ 1 < 1.
Proof. split; [vm_compute; reflexivity|]. intros H. discriminate H. Qed.

(** *** [db_init] and the matchers, called in the script's order *)

(** The snapshot that [db_init] commits: both candidate tables empty. *)
Lemma db_init_clears c :
  db_init c
  = {| store := set_fuzzy_name [] (set_fuzzy_meta [] (store c));
       commits := set_fuzzy_name [] (set_fuzzy_meta [] (store c))
                  :: store c :: commits c |}.
Proof. reflexivity. Qed.

Lemma matching_steps_store ext a c :
  store (matching_steps ext a c)
  = set_fuzzy_name
      (if names a then query_names ext (threshold a) (store c) else [])
      (set_fuzzy_meta
         (if meta a then query_meta ext (threshold a) (store c) else [])
         (store c)).
Proof. unfold matching_steps. now destruct (meta a), (names a). Qed.

Lemma query_meta_mono ext d t1 t2 :
  t1 <= t2 -> incl (query_meta ext t2 d) (query_meta ext t1 d).
Proof.
  intros H row. rewrite !in_query_meta.
  intros (dr & gr & x & Hdr & Hgr & E & L & ->).
  exists dr, gr, x. repeat split; try assumption.
  pose proof (to_double_mono _ _ (format_5f_mono _ _ H)). lra.
Qed.

Lemma query_names_mono ext d t1 t2 :
  t1 <= t2 -> incl (query_names ext t2 d) (query_names ext t1 d).
Proof.
  intros H row. rewrite !in_query_names.
  intros (dr & gr & x & Hdr & Hgr & E & L & ->).
  exists dr, gr, x. repeat split; try assumption.
  pose proof (to_double_mono _ _ (format_5f_mono _ _ H)). lra.
Qed.

(** C7: on the same stored records and for the same categories, the
    candidates of a run with the stricter threshold are among those of a
    run with the looser one. *)
Theorem stricter_threshold_subset ext c m n t1 t2 :
  t1 <= t2 ->
  let run t :=
    store (matching_steps ext {| meta := m; names := n; threshold := t |} c) in
  incl (fuzzy_meta (run t2)) (fuzzy_meta (run t1)) /\
  incl (fuzzy_name (run t2)) (fuzzy_name (run t1)).
Proof.
  intros H run. subst run. cbn beta. rewrite !matching_steps_store.
  cbn [fuzzy_meta fuzzy_name set_fuzzy_meta set_fuzzy_name meta names threshold].
  split.
  - destruct m; [now apply query_meta_mono | apply incl_refl].
  - destruct n; [now apply query_names_mono | apply incl_refl].
Qed.

Lemma stricter_threshold_subset_witness :
  let run t := store (matching_steps sample_ext
                        {| meta := true; names := true; threshold := t |}
                        (connect sample_db)) in
  (8 # 10) <= 1 /\
  incl (fuzzy_meta (run 1)) (fuzzy_meta (run (8 # 10))) /\
  incl (fuzzy_name (run 1)) (fuzzy_name (run (8 # 10))).
Proof.
  assert (H : (8 # 10) <= 1) by (vm_compute; discriminate).
  split; [exact H|].
  exact (stricter_threshold_subset sample_ext (connect sample_db)
           true true (8 # 10) 1 H).
Defined.

(** C4, as the functions have it: [db_init] empties both candidate
    tables, whichever category is matched afterwards, and commits that
    on its own; each matcher called after it fills its table and commits
    by its own statement.  After [db_init] and the matchers of the
    categories asked for, a category asked for holds exactly the
    candidates of the threshold given and the other one is empty; the
    DNB and Gazetteer tables are as before, so doing the same again
    depends on the new threshold only. *)
Theorem init_then_match_replaces_candidates ext a c :
  let cleared := set_fuzzy_name [] (set_fuzzy_meta [] (store c)) in
  let c' := matching_steps ext a c in
  db_init c = {| store := cleared; commits := cleared :: store c :: commits c |} /\
  fuzzy_meta (store c')
  = (if meta a then query_meta ext (threshold a) (store c) else []) /\
  fuzzy_name (store c')
  = (if names a then query_names ext (threshold a) (store c) else []) /\
  (dnb_meta (store c') = dnb_meta (store c) /\
   dnb_name (store c') = dnb_name (store c) /\
   dnb_old_auth (store c') = dnb_old_auth (store c) /\
   gaz_meta (store c') = gaz_meta (store c) /\
   gaz_name (store c') = gaz_name (store c)) /\
  commits c'
  = (if names a then [store c'] else [])
    ++ (if meta a
        then [set_fuzzy_meta (query_meta ext (threshold a) (store c)) cleared]
        else [])
    ++ cleared :: store c :: commits c /\
  (forall a',
     fuzzy_meta (store (matching_steps ext a' c'))
     = (if meta a' then query_meta ext (threshold a') (store c) else []) /\
     fuzzy_name (store (matching_steps ext a' c'))
     = (if names a' then query_names ext (threshold a') (store c) else [])).
Proof.
  intros cleared c'. subst cleared c'.
  split; [reflexivity|].
  split; [now rewrite matching_steps_store|].
  split; [now rewrite matching_steps_store|].
  split; [now rewrite matching_steps_store|]. split.
  - unfold matching_steps. rewrite db_init_clears.
    now destruct (meta a), (names a).
  - intros a'. rewrite !matching_steps_store. split; reflexivity.
Qed.

(** C4, as stated, fails: [db_init] followed by the meta matcher alone
    also deletes the stored name candidates, and the deletion is a
    commit point of its own, before the new meta candidates are
    written. *)
Lemma init_deletes_name_candidates :
  let c := db_fuzzy_match_meta sample_ext (db_init (connect sample_db)) (8 # 10) in
  fuzzy_name sample_db = [{| fz_dnb := 9; fz_gaz := 9; fz_jarow := 1 |}] /\
  fuzzy_name (store c) = [] /\
  fuzzy_meta (store c) = [{| fz_dnb := 1; fz_gaz := 1; fz_jarow := 1 |}] /\
  exists s, In s (commits c) /\ fuzzy_meta s = [] /\ fuzzy_name s = [].
Proof.
  vm_compute. split; [reflexivity|]. split; [reflexivity|].
  split; [reflexivity|].
  eexists. split; [right; left; reflexivity|]. split; reflexivity.
Qed.

(** *** The script as shipped *)

(** Every run of the script ends in [parse_args]: the exception is not
    caught, the database is not opened and nothing is logged. *)
Lemma main_raises argv lib_path load c :
  main argv lib_path load c
  = {| end_con := c; end_log := []; end_exn := Some AttributeError |}.
Proof. reflexivity. Qed.

End FuzzyFacts.
(** ** import.py: a whole run *)

Module ImporterRun.
Import Sqlite Importer PyStrFacts ImporterFacts.

(** *** One step of the loop, in full *)

Lemma map_cols_nil {A B} (f : A -> B) (l : list A) : map f l = [] -> l = [].
Proof. now destruct l. Qed.

Lemma name_cols_attached i rows (vs : list string) :
  map name_cols rows = map (fun v => (Some i, v)) vs ->
  Forall (fun r => dn_dnb_meta_id r = Some i) rows.
Proof.
  revert vs. induction rows as [|r rows IH]; intros [|v vs] H;
    try discriminate; constructor.
  - now injection H as E _ _.
  - injection H as _ _ H. eauto.
Qed.

Lemma old_auth_cols_attached i rows (vs : list string) :
  map old_auth_cols rows
  = map (fun v => (Some i, v, fst (parse_old_auth v), snd (parse_old_auth v))) vs ->
  Forall (fun r => da_dnb_meta_id r = Some i) rows.
Proof.
  revert vs. induction rows as [|r rows IH]; intros [|v vs] H;
    try discriminate; constructor.
  - now injection H as E _ _.
  - injection H as _ _ _ _ H. eauto.
Qed.

(** An accepted object with a new id: the store, the count and the log
    after the step. *)
Lemma import_obj_new_state db_path old_auth st o obj_id :
  obj_at_id o = Some obj_id ->
  accepted obj_id = true ->
  ~ In (strip dnb_ident obj_id) (map dm_dnb_id (dnb_meta (store (st_con st)))) ->
  let d := store (st_con st) in
  let st' := import_obj db_path old_auth st o in
  exists parent nrows arows,
    dm_dnb_id parent = strip dnb_ident obj_id /\
    store (st_con st')
    = set_dnb_old_auth (dnb_old_auth d ++ arows)
        (set_dnb_name (dnb_name d ++ nrows)
           (set_dnb_meta (dnb_meta d ++ [parent]) d)) /\
    Forall (fun r => dn_dnb_meta_id r = Some (dm_id parent)) nrows /\
    Forall (fun r => da_dnb_meta_id r = Some (dm_id parent)) arows /\
    (old_auth = false -> arows = []) /\
    st_n st' = st_n st + 1 /\
    st_log st'
    = st_log st ++ (DEBUG, msg_importing (strip dnb_ident obj_id) (st_n st))
        :: (if (st_n st + 1) mod 10000 =? 0
            then [(INFO, msg_imported (st_n st + 1) db_path)]
            else []).
Proof.
  intros Hid Hacc Hnew d st'.
  set (dnb_id := strip dnb_ident obj_id) in *.
  set (owl := owl_scan (get_list o owl_key)).
  set (parent :=
    {| dm_id := next_id (map dm_id (dnb_meta d));
       dm_dnb_id := dnb_id;
       dm_pref_name := get_pref_name (get_list o pref_name_key);
       dm_owl_geonames := owl_geonames owl; dm_owl_gnd := owl_gnd owl;
       dm_owl_loc := owl_loc owl; dm_owl_viaf := owl_viaf owl;
       dm_owl_wikidata := owl_wikidata owl |}).
  set (vn := collect_values dnb_id (get_list o var_names_key)).
  set (oa := if old_auth
             then collect_values dnb_id (get_list o old_auths_key)
             else None).
  assert (Hins : insert_dnb_meta dnb_id (get_pref_name (get_list o pref_name_key))
                   (owl_geonames owl) (owl_gnd owl) (owl_loc owl)
                   (owl_viaf owl) (owl_wikidata owl) d
                 = Ok (set_dnb_meta (dnb_meta d ++ [parent]) d)).
  { assert (Hex := existsb_dnb_id_false _ _ Hnew).
    change (existsb (fun r => String.eqb (dm_dnb_id r) dnb_id) (dnb_meta d)
            = false) in Hex.
    unfold insert_dnb_meta. now rewrite Hex. }
  destruct (db_import_dnb_ok (st_con st) dnb_id _ _ _ _ _ _ vn oa _ Hins)
    as (nrows & arows & Hn & Ha & Heq).
  assert (Hsel : select_meta_id dnb_id (set_dnb_meta (dnb_meta d ++ [parent]) d)
                 = Some (dm_id parent)) by now apply select_meta_id_new.
  assert (Hn' : map name_cols nrows
                = map (fun v => (Some (dm_id parent), v))
                    (nonempty_values (get_list o var_names_key))).
  { rewrite Hn. subst vn. rewrite entries_collect_values, map_map.
    cbn [fst snd]. now rewrite Hsel. }
  assert (Ha' : map old_auth_cols arows
                = map (fun v => (Some (dm_id parent), v,
                                 fst (parse_old_auth v), snd (parse_old_auth v)))
                    (if old_auth
                     then nonempty_values (get_list o old_auths_key)
                     else [])).
  { rewrite Ha.
    replace (entries oa)
      with (map (fun v => (dnb_id, v))
              (if old_auth then nonempty_values (get_list o old_auths_key) else [])).
    - rewrite map_map. cbn [fst snd]. now rewrite Hsel.
    - subst oa. destruct old_auth; [|reflexivity].
      now rewrite entries_collect_values. }
  exists parent, nrows, arows.
  split; [reflexivity|].
  assert (E : st' =
    let st2 := {| st_con :=
                    {| store := set_dnb_old_auth (dnb_old_auth d ++ arows)
                                  (set_dnb_name (dnb_name d ++ nrows)
                                     (set_dnb_meta (dnb_meta d ++ [parent]) d));
                       commits := (if runs oa then
                                     [set_dnb_old_auth (dnb_old_auth d ++ arows)
                                        (set_dnb_name (dnb_name d ++ nrows)
                                           (set_dnb_meta (dnb_meta d ++ [parent]) d))]
                                   else [])
                                  ++ (if runs vn then
                                        [set_dnb_name (dnb_name d ++ nrows)
                                           (set_dnb_meta (dnb_meta d ++ [parent]) d)]
                                      else [])
                                  ++ set_dnb_meta (dnb_meta d ++ [parent]) d
                                     :: commits (st_con st) |};
                  st_n := st_n st + 1;
                  st_log := st_log st ++ [(DEBUG, msg_importing dnb_id (st_n st))] |} in
    if (st_n st + 1) mod 10000 =? 0
    then log INFO (msg_imported (st_n st + 1) db_path) st2
    else st2).
  { subst st'. rewrite (import_obj_accepted _ _ _ _ _ Hid Hacc). cbn zeta.
    fold dnb_id owl vn oa. cbn [log st_con st_n st_log].
    cbn [set_dnb_meta set_dnb_name set_dnb_old_auth dnb_name dnb_old_auth] in Heq.
    rewrite Heq. reflexivity. }
  rewrite E. cbn zeta.
  destruct ((st_n st + 1) mod 10000 =? 0); cbn [log st_con st_n st_log store];
    (split; [reflexivity|]);
    (split; [exact (name_cols_attached _ _ _ Hn')|]);
    (split; [exact (old_auth_cols_attached _ _ _ Ha')|]);
    (split; [intros ->; exact (map_cols_nil _ _ Ha')|]);
    (split; [reflexivity|]); rewrite <- ?app_assoc; reflexivity.
Qed.

(** Every other object: a missing or empty [@id], an id outside the DNB
    namespace or ending in [/about], or an id stored already. *)
Lemma import_obj_skip_state db_path old_auth st o :
  (accepted_obj o = false \/
   exists obj_id, obj_at_id o = Some obj_id /\ accepted obj_id = true /\
     In (strip dnb_ident obj_id) (map dm_dnb_id (dnb_meta (store (st_con st))))) ->
  let st' := import_obj db_path old_auth st o in
  st_con st' = st_con st /\ st_n st' = st_n st /\
  exists msgs,
    st_log st' = st_log st ++ msgs /\
    count_level INFO msgs = 0%nat /\
    count_level WARNING msgs = (if accepted_obj o then 1 else 0)%nat.
Proof.
  intros [Hrej | (obj_id & Hid & Hacc & Hin)]; cbn zeta.
  - rewrite Hrej. unfold accepted_obj in Hrej. unfold import_obj.
    destruct (obj_at_id o) as [obj_id|];
      [|repeat split; eexists; split; [reflexivity|split; reflexivity]].
    unfold accepted in Hrej.
    destruct (PyStr.truthy (Some obj_id)); cbn [negb];
      [|repeat split; eexists; split; [reflexivity|split; reflexivity]].
    destruct (PyStr.startswith obj_id dnb_ident); cbn [negb orb andb] in *;
      [|repeat split; eexists; split; [reflexivity|split; reflexivity]].
    apply negb_false_iff in Hrej. rewrite Hrej.
    repeat split; eexists; split; [reflexivity|split; reflexivity].
  - rewrite (import_obj_duplicate _ _ _ _ _ Hid Hacc Hin).
    unfold accepted_obj. rewrite Hid, Hacc. cbn [log st_con st_n st_log].
    repeat split. eexists. split; [now rewrite <- app_assoc|].
    split; reflexivity.
Qed.


Lemma import_obj_dichotomy st o :
  (accepted_obj o = false \/
   exists obj_id, obj_at_id o = Some obj_id /\ accepted obj_id = true /\
     In (strip dnb_ident obj_id) (map dm_dnb_id (dnb_meta (store (st_con st)))))
  \/
  (exists obj_id, obj_at_id o = Some obj_id /\ accepted obj_id = true /\
     ~ In (strip dnb_ident obj_id) (map dm_dnb_id (dnb_meta (store (st_con st))))).
Proof.
  unfold accepted_obj. destruct (obj_at_id o) as [obj_id|]; [|now left; left].
  destruct (accepted obj_id) eqn:Hacc; [|now left; left].
  destruct (in_dec string_dec (strip dnb_ident obj_id)
              (map dm_dnb_id (dnb_meta (store (st_con st))))) as [Hin|Hnew].
  - left. right. eauto.
  - right. eauto.
Qed.

Lemma run_induction (P : state -> Prop) db_path old_auth :
  (forall st o, P st -> P (import_obj db_path old_auth st o)) ->
  forall objects st, P st -> P (fold_left (import_obj db_path old_auth) objects st).
Proof.
  intros Hstep objects. induction objects as [|o objects IH]; intros st H;
    cbn [fold_left]; auto.
Qed.

Lemma count_level_app lv l1 l2 :
  count_level lv (l1 ++ l2) = (count_level lv l1 + count_level lv l2)%nat.
Proof. unfold count_level. now rewrite List.filter_app, length_app. Qed.

(** *** The count of imported objects *)

Lemma run_count db_path old_auth objects st :
  let st' := fold_left (import_obj db_path old_auth) objects st in
  Z.of_nat (length (dnb_meta (store (st_con st'))))
  = Z.of_nat (length (dnb_meta (store (st_con st)))) + (st_n st' - st_n st) /\
  st_n st <= st_n st' <= st_n st + Z.of_nat (length objects).
Proof.
  revert st. induction objects as [|o objects IH]; intro st; cbn [fold_left length].
  - cbn zeta. lia.
  - specialize (IH (import_obj db_path old_auth st o)). cbn zeta in IH.
    destruct IH as [IH1 IH2].
    destruct (import_obj_dichotomy st o) as [Hs|(obj_id & Hid & Hacc & Hnew)].
    + destruct (import_obj_skip_state db_path old_auth st o Hs) as (Hc & Hn & _).
      rewrite Hc, Hn in *. cbn zeta. lia.
    + destruct (import_obj_new_state db_path old_auth st o obj_id Hid Hacc Hnew)
        as (parent & nrows & arows & _ & Hst & _ & _ & _ & Hn & _).
      rewrite Hst, Hn in *. cbn [dnb_meta set_dnb_old_auth set_dnb_name set_dnb_meta] in *.
      rewrite length_app in IH1. cbn [length] in IH1. cbn zeta. lia.
Qed.

(** X1: the total that a run reports in its last log line is the number of
    rows the run has added to [dnb_meta]; it is at most the number of
    objects read. *)
Theorem reported_total_is_rows_added json_path objects db_path c old_auth :
  let st := json_import_dnb json_path objects db_path c old_auth in
  last (st_log st) = Some (INFO, msg_imported (st_n st) db_path) /\
  Z.of_nat (length (dnb_meta (store (st_con st))))
  = Z.of_nat (length (dnb_meta (store c))) + st_n st /\
  0 <= st_n st <= Z.of_nat (length objects).
Proof.
  unfold json_import_dnb. cbn zeta. cbn [log st_con st_n st_log].
  split; [apply last_snoc|].
  match goal with |- context [fold_left _ _ ?s] =>
    destruct (run_count db_path old_auth objects s) as [H1 H2] end.
  cbn [st_con st_n db_open db_pragma commit store] in H1, H2. lia.
Qed.


(** *** What a run leaves untouched *)

Lemma extends_refl old_auth d : extends old_auth d d.
Proof.
  split; [exists []; now rewrite app_nil_r|].
  split; [exists []; now rewrite app_nil_r|].
  split; [exists []; split; [now rewrite app_nil_r | auto]|].
  repeat split.
Qed.

Lemma extends_trans old_auth d1 d2 d3 :
  extends old_auth d1 d2 -> extends old_auth d2 d3 -> extends old_auth d1 d3.
Proof.
  intros ([m1 Hm1] & [n1 Hn1] & (a1 & Ha1 & Hf1) & G1 & G2 & G3 & G4)
         ([m2 Hm2] & [n2 Hn2] & (a2 & Ha2 & Hf2) & K1 & K2 & K3 & K4).
  split; [exists (m1 ++ m2); now rewrite Hm2, Hm1, app_assoc|].
  split; [exists (n1 ++ n2); now rewrite Hn2, Hn1, app_assoc|].
  split.
  - exists (a1 ++ a2). split; [now rewrite Ha2, Ha1, app_assoc|].
    intros E. now rewrite (Hf1 E), (Hf2 E).
  - repeat split; congruence.
Qed.

Lemma import_obj_extends db_path old_auth st o :
  extends old_auth (store (st_con st))
    (store (st_con (import_obj db_path old_auth st o))).
Proof.
  destruct (import_obj_dichotomy st o) as [Hs|(obj_id & Hid & Hacc & Hnew)].
  - destruct (import_obj_skip_state db_path old_auth st o Hs) as (-> & _).
    apply extends_refl.
  - destruct (import_obj_new_state db_path old_auth st o obj_id Hid Hacc Hnew)
      as (parent & nrows & arows & _ & -> & _ & _ & Hf & _).
    split; [exists [parent]; reflexivity|].
    split; [exists nrows; reflexivity|].
    split; [exists arows; split; [reflexivity | exact Hf]|].
    repeat split.
Qed.

(** X2: a run only appends.  The rows that the three DNB tables held
    before the run are still there, in place, after it; the Gazetteer
    tables and the candidate tables are not touched; and a run that was
    not asked for old authority numbers writes none. *)
Theorem run_only_appends json_path objects db_path c old_auth :
  extends old_auth (store c)
    (store (st_con (json_import_dnb json_path objects db_path c old_auth))).
Proof.
  unfold json_import_dnb. cbn zeta. cbn [log st_con].
  match goal with |- context [fold_left _ _ ?s] =>
    change (store c) with (store (st_con s));
    generalize s end.
  induction objects as [|o objects IH]; intro st; cbn [fold_left].
  - apply extends_refl.
  - eapply extends_trans; [apply import_obj_extends | apply IH].
Qed.

(** *** Invariants of the store *)

(** The ids of [dnb_meta] stay pairwise different through a run, as
    the UNIQUE constraint makes them. *)
Lemma run_keeps_ids_unique json_path objects db_path c old_auth :
  unique_ids (store c) ->
  unique_ids (store (st_con (json_import_dnb json_path objects db_path c old_auth))).
Proof.
  intros Hu. unfold json_import_dnb. cbn zeta. cbn [log st_con].
  apply (run_induction (fun st => unique_ids (store (st_con st)))).
  - intros st o. apply import_obj_unique_ids.
  - exact Hu.
Qed.

Lemma run_keeps_ids_unique_witness :
  unique_ids
    (store (st_con (json_import_dnb "dnb.json" [sample_obj; sample_obj]
                      "db.sqlite" (connect empty_db) true))).
Proof.
  apply (run_keeps_ids_unique "dnb.json" [sample_obj; sample_obj]
           "db.sqlite" (connect empty_db) true).
  constructor.
Defined.

Lemma import_obj_children_attached db_path old_auth st o :
  children_attached (store (st_con st)) ->
  children_attached (store (st_con (import_obj db_path old_auth st o))).
Proof.
  intros [Hn Ha].
  destruct (import_obj_dichotomy st o) as [Hs|(obj_id & Hid & Hacc & Hnew)].
  - destruct (import_obj_skip_state db_path old_auth st o Hs) as (-> & _).
    now split.
  - destruct (import_obj_new_state db_path old_auth st o obj_id Hid Hacc Hnew)
      as (parent & nrows & arows & _ & -> & Fn & Fa & _).
    rewrite List.Forall_forall in Fn. rewrite List.Forall_forall in Fa.
    split; cbn; intros r Hr; apply in_app_iff in Hr as [Hr|Hr].
    + destruct (Hn r Hr) as (p & Hp & E). exists p.
      split; [apply in_app_iff; now left | exact E].
    + exists parent. split; [apply in_app_iff; right; now left | now apply Fn].
    + destruct (Ha r Hr) as (p & Hp & E). exists p.
      split; [apply in_app_iff; now left | exact E].
    + exists parent. split; [apply in_app_iff; right; now left | now apply Fa].
Qed.

(** X4: no child row is left without a parent.  When every row of
    [dnb_name] and [dnb_old_auth] points to a row of [dnb_meta] before a
    run, so it does after it: the sub-select of the two child INSERTs
    never yields NULL. *)
Theorem run_keeps_children_attached json_path objects db_path c old_auth :
  children_attached (store c) ->
  children_attached
    (store (st_con (json_import_dnb json_path objects db_path c old_auth))).
Proof.
  intros H. unfold json_import_dnb. cbn zeta. cbn [log st_con].
  apply (run_induction (fun st => children_attached (store (st_con st)))).
  - intros st o. apply import_obj_children_attached.
  - exact H.
Qed.

Lemma run_keeps_children_attached_witness :
  children_attached
    (store (st_con (json_import_dnb "dnb.json" [sample_obj] "db.sqlite"
                      (connect empty_db) true))).
Proof.
  apply (run_keeps_children_attached "dnb.json" [sample_obj] "db.sqlite"
           (connect empty_db) true).
  split; intros r [].
Defined.


(** *** Where the stored ids come from *)

Lemma prefix_app p s :
  String.prefix p s = true -> exists r, s = p +:+ r.
Proof.
  revert s. induction p as [|a p IH]; intros s H.
  - exists s. reflexivity.
  - destruct s as [|b s]; cbn [String.prefix] in H; [discriminate|].
    destruct (ascii_dec a b) as [->|]; [|discriminate].
    destruct (IH s H) as [r ->]. exists r. now rewrite app_String.
Qed.

Lemma startswith_strip s p :
  PyStr.startswith s p = true -> s = p +:+ strip p s.
Proof.
  intros H. destruct (prefix_app p s H) as [r ->].
  unfold strip. now rewrite slice_tail.
Qed.

Lemma namespace_match_iri ident (owl_obj : node) x :
  namespace_match ident owl_obj = Some x ->
  owl_obj !! "@id" = Some (ident +:+ x).
Proof.
  unfold namespace_match. destruct (owl_obj !! "@id") as [v|]; [|discriminate].
  destruct (PyStr.startswith v ident) eqn:E; [|discriminate].
  intros [= <-]. f_equal. now apply startswith_strip.
Qed.

Lemma last_match_in ident owl_list x :
  last_match ident owl_list = Some x ->
  exists owl_obj, In owl_obj owl_list /\ owl_obj !! "@id" = Some (ident +:+ x).
Proof.
  unfold last_match. intros H.
  apply last_Some_elem_of, list_elem_of_omap in H as (n & Hn & Hm).
  exists n. split; [now apply list_elem_of_In | now apply namespace_match_iri].
Qed.

Lemma owl_scan_last_match owl_list :
  owl_geonames (owl_scan owl_list) = last_match owl_geonames_ident owl_list /\
  owl_gnd (owl_scan owl_list) = last_match owl_gnd_ident owl_list /\
  owl_loc (owl_scan owl_list) = last_match owl_loc_ident owl_list /\
  owl_viaf (owl_scan owl_list) = last_match owl_viaf_ident owl_list /\
  owl_wikidata (owl_scan owl_list) = last_match owl_wikidata_ident owl_list.
Proof.
  repeat split.
  - same_as_field owl_geonames_ident owl_geonames.
  - same_as_field owl_gnd_ident owl_gnd.
  - same_as_field owl_loc_ident owl_loc.
  - same_as_field owl_viaf_ident owl_viaf.
  - same_as_field owl_wikidata_ident owl_wikidata.
Qed.

(** X5: identifiers are IRIs with the namespace cut off, and nothing
    else.  Every row that a run adds to [dnb_meta] comes from an object
    of the stream whose [@id] is the DNB namespace followed by the stored
    [dnb_id]; and each stored same-as identifier, put behind its
    namespace, is the [@id] of an entry of that object's same-as list. *)
Theorem stored_ids_come_from_stream json_path objects db_path c old_auth r :
  In r (dnb_meta (store (st_con (json_import_dnb json_path objects db_path c
                                   old_auth)))) ->
  In r (dnb_meta (store c)) \/
  exists o,
    In o objects /\
    obj_at_id o = Some (dnb_ident +:+ dm_dnb_id r) /\
    (forall x, dm_owl_geonames r = Some x ->
       exists e, In e (get_list o owl_key)
                 /\ e !! "@id" = Some (owl_geonames_ident +:+ x)) /\
    (forall x, dm_owl_gnd r = Some x ->
       exists e, In e (get_list o owl_key)
                 /\ e !! "@id" = Some (owl_gnd_ident +:+ x)) /\
    (forall x, dm_owl_loc r = Some x ->
       exists e, In e (get_list o owl_key)
                 /\ e !! "@id" = Some (owl_loc_ident +:+ x)) /\
    (forall x, dm_owl_viaf r = Some x ->
       exists e, In e (get_list o owl_key)
                 /\ e !! "@id" = Some (owl_viaf_ident +:+ x)) /\
    (forall x, dm_owl_wikidata r = Some x ->
       exists e, In e (get_list o owl_key)
                 /\ e !! "@id" = Some (owl_wikidata_ident +:+ x)).
Proof.
  unfold json_import_dnb. cbn zeta. cbn [log st_con].
  match goal with |- context [fold_left _ _ ?s] =>
    change (store c) with (store (st_con s)); generalize s end.
  induction objects as [|o objects IH]; intro st; cbn [fold_left]; [now left|].
  intros Hr. destruct (IH _ Hr) as [Hold|(o' & Ho' & Hrest)].
  2:{ right. exists o'. split; [now right | exact Hrest]. }
  destruct (import_obj_dichotomy st o) as [Hs|(obj_id & Hid & Hacc & Hnew)].
  - destruct (import_obj_skip_state db_path old_auth st o Hs) as (Hc & _).
    rewrite Hc in Hold. now left.
  - destruct (import_obj_new db_path old_auth st o obj_id Hid Hacc Hnew)
      as (_ & Hm & _).
    rewrite Hm in Hold. apply in_app_iff in Hold as [Hold|[<-|[]]]; [now left|].
    right. exists o. split; [now left|].
    cbn [dm_dnb_id dm_owl_geonames dm_owl_gnd dm_owl_loc dm_owl_viaf
         dm_owl_wikidata].
    split.
    { rewrite Hid. f_equal. unfold accepted in Hacc.
      apply andb_true_iff in Hacc as [Hacc _].
      apply andb_true_iff in Hacc as [_ Hs]. now apply startswith_strip. }
    destruct (owl_scan_last_match (get_list o owl_key))
      as (-> & -> & -> & -> & ->).
    repeat split; intros x Hx; now apply last_match_in.
Qed.


Lemma stored_ids_come_from_stream_witness :
  exists r o,
    In r (dnb_meta (store (st_con (json_import_dnb "dnb.json" [sample_obj]
                                     "db.sqlite" (connect empty_db) true)))) /\
    In o [sample_obj] /\
    obj_at_id o = Some (dnb_ident +:+ dm_dnb_id r).
Proof.
  eexists.
  assert (Hr : In _ (dnb_meta (store (st_con
             (json_import_dnb "dnb.json" [sample_obj] "db.sqlite"
                (connect empty_db) true))))) by (left; reflexivity).
  destruct (stored_ids_come_from_stream "dnb.json" [sample_obj] "db.sqlite"
              (connect empty_db) true _ Hr) as [[]|(o & Ho & Hid & _)].
  exists o. split; [exact Hr|]. split; [exact Ho | exact Hid].
Defined.

(** *** Progress lines and warnings *)

Lemma div_succ_10000 n :
  0 <= n ->
  (n + 1) / 10000 = n / 10000 + (if (n + 1) mod 10000 =? 0 then 1 else 0).
Proof.
  intros Hn. destruct (Z.eqb_spec ((n + 1) mod 10000) 0) as [E|E];
    Z.div_mod_to_equations; lia.
Qed.

Lemma run_log_counts db_path old_auth objects st :
  0 <= st_n st ->
  let st' := fold_left (import_obj db_path old_auth) objects st in
  Z.of_nat (count_level INFO (st_log st'))
  = Z.of_nat (count_level INFO (st_log st))
    + (st_n st' / 10000 - st_n st / 10000) /\
  Z.of_nat (length (List.filter accepted_obj objects))
  = (st_n st' - st_n st)
    + (Z.of_nat (count_level WARNING (st_log st'))
       - Z.of_nat (count_level WARNING (st_log st))).
Proof.
  revert st. induction objects as [|o objects IH]; intros st Hn;
    cbn [fold_left List.filter]; [cbn zeta; cbn [length]; lia|].
  destruct (import_obj_dichotomy st o) as [Hs|(obj_id & Hid & Hacc & Hnew)].
  - destruct (import_obj_skip_state db_path old_auth st o Hs)
      as (Hc & Hn' & msgs & Hl & Hi & Hw).
    destruct (IH (import_obj db_path old_auth st o)) as [IH1 IH2]; [lia|].
    rewrite Hn', Hl, !count_level_app, Hi, Hw in *. cbn zeta.
    destruct (accepted_obj o); cbn [length]; lia.
  - destruct (import_obj_new_state db_path old_auth st o obj_id Hid Hacc Hnew)
      as (_ & _ & _ & _ & _ & _ & _ & _ & Hn' & Hl).
    destruct (IH (import_obj db_path old_auth st o)) as [IH1 IH2]; [lia|].
    assert (Ha : accepted_obj o = true) by (unfold accepted_obj; now rewrite Hid).
    rewrite Hn', Hl, !count_level_app in *. rewrite Ha. cbn zeta. cbn [length].
    pose proof (div_succ_10000 (st_n st) Hn) as Hd.
    destruct ((st_n st + 1) mod 10000 =? 0);
      cbn [count_level List.filter fst level_eqb length] in *; lia.
Qed.

(** X6: progress is reported once per 10000 imported objects.  The log
    of a run holds one INFO line for each full 10000 of the final count,
    and the closing total. *)
Theorem progress_every_10000 json_path objects db_path c old_auth :
  let st := json_import_dnb json_path objects db_path c old_auth in
  Z.of_nat (count_level INFO (st_log st)) = st_n st / 10000 + 1.
Proof.
  unfold json_import_dnb. cbn zeta. cbn [log st_con st_n st_log].
  rewrite count_level_app.
  match goal with |- context [fold_left _ _ ?s] =>
    destruct (run_log_counts db_path old_auth objects s) as [H _] end;
    [cbn; lia|].
  cbn [st_n st_log] in H.
  change (count_level INFO [(DEBUG, msg_reading json_path)]) with 0%nat in H.
  change (0 / 10000) with 0 in H.
  cbn [count_level List.filter fst level_eqb length]. lia.
Qed.

(** X7: every object that passes the two guards on [@id] is accounted
    for: it is either counted as imported or reported by one warning, so
    the number of such objects is the final count plus the number of
    warnings.  Objects that fail a guard raise no warning. *)
Theorem accepted_objects_accounted json_path objects db_path c old_auth :
  let st := json_import_dnb json_path objects db_path c old_auth in
  Z.of_nat (length (List.filter accepted_obj objects))
  = st_n st + Z.of_nat (count_level WARNING (st_log st)).
Proof.
  unfold json_import_dnb. cbn zeta. cbn [log st_con st_n st_log].
  rewrite count_level_app.
  match goal with |- context [fold_left _ _ ?s] =>
    destruct (run_log_counts db_path old_auth objects s) as [_ H] end;
    [cbn; lia|].
  cbn [st_n st_log] in H.
  change (count_level WARNING [(DEBUG, msg_reading json_path)]) with 0%nat in H.
  cbn [count_level List.filter fst level_eqb length]. lia.
Qed.

End ImporterRun.

(** ** import.py: old authority numbers, read back *)

Module OldAuthority.
Import Sqlite Importer PyStrFacts ImporterFacts.

Lemma parse_old_auth_cases v :
  (exists P V, old_auth_form v P V) \/ parse_old_auth v = (None, None).
Proof.
  unfold parse_old_auth.
  destruct (Z.eqb_spec (PyStr.find "(" v) 0) as [Hi|]; [|now right].
  destruct (Z.gtb_spec (PyStr.find ")" v) 1) as [Hj|]; [|now right].
  left. unfold PyStr.find in *.
  destruct v as [|a v]; [discriminate Hi|]. cbn [PyStr.find_from] in *.
  destruct (Ascii.eqb_spec a "(") as [->|_].
  - change (Ascii.eqb "(" ")") with false in Hj. cbn iota in Hj.
    destruct (find_from_inv ")" v (0 + 1)) as (p & r & -> & Hp & Hf); [lia|lia|].
    exists p, r. repeat split; [|exact Hp].
    intros ->. rewrite Hf in Hj. unfold PyStr.len in Hj. simpl in Hj. lia.
  - destruct (find_from_range "(" v (0 + 1)); lia.
Qed.

(** X8: the parse of an old authority number loses nothing.  [prefix]
    and [gnd_id] are null together; when they are not, the prefix is not
    empty and holds no closing parenthesis, and the raw value is
    [(prefix)gnd_id] again. *)
Theorem old_auth_round_trip v :
  match parse_old_auth v with
  | (Some P, Some V) =>
      v = "(" +:+ P +:+ ")" +:+ V /\ P <> "" /\ ~ PyStr.occurs ")" P
  | (None, None) => True
  | _ => False
  end.
Proof.
  destruct (parse_old_auth_cases v) as [(P & V & F)| ->]; [|exact I].
  rewrite (parse_old_auth_shape v P V F). exact F.
Qed.

End OldAuthority.

(** ** fuzzy.py: more on runs and thresholds *)

Module FuzzyRun.
Import Sqlite Fuzzy FuzzyFacts.

Local Open Scope Q_scope.

(** X9: a run is idempotent: [db_init] and the matchers, called again
    with the same arguments, leave the tables exactly as the first time. *)
Theorem matching_steps_idempotent ext a c :
  store (matching_steps ext a (matching_steps ext a c))
  = store (matching_steps ext a c).
Proof. rewrite !matching_steps_store. now destruct (meta a), (names a). Qed.

(** The matchers themselves never delete.  Each appends its rows to
    what its table holds and leaves every other table alone, so calling
    one twice without [db_init] in between stores every candidate twice. *)
Lemma matchers_append ext c t :
  store (db_fuzzy_match_meta ext c t)
  = set_fuzzy_meta (fuzzy_meta (store c) ++ query_meta ext t (store c)) (store c) /\
  store (db_fuzzy_match_names ext c t)
  = set_fuzzy_name (fuzzy_name (store c) ++ query_names ext t (store c)) (store c) /\
  fuzzy_meta (store (db_fuzzy_match_meta ext (db_fuzzy_match_meta ext c t) t))
  = (fuzzy_meta (store c) ++ query_meta ext t (store c))
    ++ query_meta ext t (store c) /\
  fuzzy_name (store (db_fuzzy_match_names ext (db_fuzzy_match_names ext c t) t))
  = (fuzzy_name (store c) ++ query_names ext t (store c))
    ++ query_names ext t (store c).
Proof. repeat split. Qed.

Lemma format_5f_near t :
  t - (1 # 200000) <= format_5f t /\ format_5f t <= t + (1 # 200000).
Proof.
  unfold format_5f.
  destruct (round_half_even_near (t * 100000)) as [Hlo Hhi].
  set (k := inject_Z (round_half_even (t * 100000))) in *.
  assert (E : k / 100000 == k * (1 # 100000)) by (unfold Qdiv; reflexivity).
  rewrite E. lra.
Qed.

Lemma floor_log2_small x : Qabs x < 2 -> (floor_log2 (Qabs x) <= 0)%Z.
Proof.
  intros H. destruct (Qlt_le_dec 0 (Qabs x)) as [Hp|Hz].
  - destruct (floor_log2_spec (Qabs x) Hp) as [Hlo _].
    assert (L : 2 ^ floor_log2 (Qabs x) < 2 ^ 1).
    { change (2 ^ 1) with 2. lra. }
    apply Qpower_lt_compat_l_inv in L; [lia | reflexivity].
  - assert (E : Qabs x == 0) by (pose proof (Qabs_nonneg x); lra).
    unfold floor_log2.
    destruct (Qle_bool 1 (Qabs x)) eqn:L.
    { apply Qle_bool_iff in L. lra. }
    assert (C : Qceiling (/ Qabs x) = Qceiling 0) by now rewrite E.
    rewrite C. reflexivity.
Qed.

(** Below 2 in size, binary64 numbers are at most [2^-52] apart. *)
Lemma to_double_near_small x :
  Qabs x < 2 ->
  x - (1 # 9007199254740992) <= to_double x /\
  to_double x <= x + (1 # 9007199254740992).
Proof.
  intros H. destruct (to_double_near x) as [Hlo Hhi].
  assert (U : ulp x <= 1 # 4503599627370496).
  { unfold ulp. pose proof (floor_log2_small x H).
    apply Qle_trans with (2 ^ (-52)); [|vm_compute; discriminate].
    apply pow2_le. unfold ulp_exp. lia. }
  split; lra.
Qed.

(** X11: the threshold acts to five decimals, up to the rounding of the
    literal to binary64.  For a threshold between 0 and 1, a pair
    scoring at least 0.000005 + 2^-53 above the threshold is always
    stored, and every stored pair scores at least the threshold less
    0.000005 + 2^-53; in between, the two roundings decide. *)
Theorem threshold_acts_to_five_decimals ext t d :
  0 <= t <= 1 ->
  let eps := (1 # 200000) + (1 # 9007199254740992) in
  (forall dr gr x,
     In dr (dnb_meta d) -> In gr (gaz_meta d) ->
     meta_jw ext dr gr = Some x -> t + eps <= x ->
     In {| fz_dnb := dm_id dr; fz_gaz := gm_id gr; fz_jarow := x |}
        (query_meta ext t d)) /\
  (forall row, In row (query_meta ext t d) -> t - eps <= fz_jarow row) /\
  (forall dr gr x,
     In dr (dnb_name d) -> In gr (gaz_name d) ->
     names_jw ext dr gr = Some x -> t + eps <= x ->
     In {| fz_dnb := dn_id dr; fz_gaz := gn_id gr; fz_jarow := x |}
        (query_names ext t d)) /\
  (forall row, In row (query_names ext t d) -> t - eps <= fz_jarow row).
Proof.
  intros Ht eps. subst eps.
  destruct (format_5f_near t) as [Hlo Hhi].
  destruct (to_double_near_small (format_5f t)) as [Dlo Dhi].
  { apply Qabs_Qlt_condition. split; lra. }
  split; [|split; [|split]].
  - intros dr gr x Hdr Hgr E Hx. apply in_query_meta.
    exists dr, gr, x. repeat split; try assumption. lra.
  - intros row Hrow. apply in_query_meta in Hrow
      as (dr & gr & x & _ & _ & _ & L & ->). cbn [fz_jarow]. lra.
  - intros dr gr x Hdr Hgr E Hx. apply in_query_names.
    exists dr, gr, x. repeat split; try assumption. lra.
  - intros row Hrow. apply in_query_names in Hrow
      as (dr & gr & x & _ & _ & _ & L & ->). cbn [fz_jarow]. lra.
Qed.

Lemma threshold_acts_to_five_decimals_witness :
  0 <= (5 # 64) <= 1 /\
  to_double (format_5f (5 # 64)) < (5 # 64) - (1 # 200000) /\
  forall row,
    In row (query_meta (scoring_ext float_0_8) (5 # 64) sample_db) ->
    (5 # 64) - ((1 # 200000) + (1 # 9007199254740992)) <= fz_jarow row.
Proof.
  assert (H : 0 <= (5 # 64) <= 1) by (split; vm_compute; discriminate).
  split; [exact H|]. split; [vm_compute; reflexivity|].
  exact (proj1 (proj2 (threshold_acts_to_five_decimals
                         (scoring_ext float_0_8) (5 # 64) sample_db H))).
Defined.

End FuzzyRun.
(** ** import.py: the Gazetteer side *)

Module GazFacts.
Import Sqlite Importer GazImporter ImporterRun.

Section Gaz.

Context {Obj : Type} (env : gaz_env Obj) (db_path : string).

(** The three ways through the loop body. *)
Lemma import_gaz_obj_cases st o :
  let st' := import_gaz_obj env db_path st o in
  (has_gazId env o = false /\
   st_con st' = st_con st /\ st_n st' = st_n st /\
   st_log st' = st_log st ++ [(WARNING, msg_no_gazId)]) \/
  (exists gaz_id,
     get_gazId env o = Some gaz_id /\ has_gazId env o = true /\
     gaz_raw_view env (dumps env o) (store (st_con st)) = Raise IntegrityError /\
     st_con st' = st_con st /\ st_n st' = st_n st /\
     st_log st' = st_log st ++ [(DEBUG, msg_importing_gaz gaz_id (st_n st));
                                (WARNING, msg_gaz_exists gaz_id)]) \/
  (exists gaz_id d,
     get_gazId env o = Some gaz_id /\ has_gazId env o = true /\
     gaz_raw_view env (dumps env o) (store (st_con st)) = Ok d /\
     st_con st' = {| store := d; commits := d :: commits (st_con st) |} /\
     st_n st' = st_n st + 1 /\
     st_log st'
     = st_log st ++ (DEBUG, msg_importing_gaz gaz_id (st_n st))
         :: (if (st_n st + 1) mod 10000 =? 0
             then [(INFO, msg_imported (st_n st + 1) db_path)]
             else [])).
Proof.
  unfold import_gaz_obj, has_gazId. cbn zeta.
  destruct (get_gazId env o) as [gaz_id|]; [|left; repeat split].
  destruct (PyStr.truthy (Some gaz_id)) eqn:T; cbn [negb]; [|left; repeat split].
  right. unfold db_import_gaz. cbn [log st_con st_n st_log].
  destruct (gaz_raw_view env (dumps env o) (store (st_con st))) as [d|[]] eqn:E.
  - right. exists gaz_id, d.
    destruct ((st_n st + 1) mod 10000 =? 0); cbn [log st_con st_n st_log];
      repeat split; now rewrite <- ?app_assoc.
  - left. exists gaz_id. cbn [log st_con st_n st_log].
    repeat split. now rewrite <- app_assoc.
Qed.

Lemma gaz_run_counts objects st :
  let st' := fold_left (import_gaz_obj env db_path) objects st in
  Z.of_nat (length objects)
  = (st_n st' - st_n st)
    + (Z.of_nat (count_level WARNING (st_log st'))
       - Z.of_nat (count_level WARNING (st_log st))) /\
  Z.of_nat (length (commits (st_con st')))
  = Z.of_nat (length (commits (st_con st))) + (st_n st' - st_n st).
Proof.
  revert st. induction objects as [|o objects IH]; intro st;
    cbn [fold_left length]; [cbn zeta; lia|].
  destruct (IH (import_gaz_obj env db_path st o)) as [IH1 IH2].
  destruct (import_gaz_obj_cases st o)
    as [(_ & Hc & Hn & Hl)
       |[(g & _ & _ & _ & Hc & Hn & Hl)|(g & d & _ & _ & _ & Hc & Hn & Hl)]];
    rewrite Hc, Hn, Hl, !count_level_app in *; cbn zeta;
    try (destruct ((st_n st + 1) mod 10000 =? 0));
    cbn [count_level List.filter fst level_eqb length commits] in *; lia.
Qed.

(** X12: every object of a Gazetteer dump is accounted for: it is counted
    as imported or reported by one warning, whatever the trigger does, so
    the number of objects read is the final count plus the number of
    warnings. *)
Theorem gaz_objects_accounted json_path objects c :
  let st := json_import_gaz env json_path objects db_path c in
  Z.of_nat (length objects)
  = st_n st + Z.of_nat (count_level WARNING (st_log st)).
Proof.
  unfold json_import_gaz. cbn zeta. cbn [log st_con st_n st_log].
  rewrite count_level_app.
  match goal with |- context [fold_left _ _ ?s] =>
    destruct (gaz_run_counts objects s) as [H _] end.
  cbn [st_n st_log] in H.
  change (count_level WARNING [(DEBUG, msg_reading_json json_path)])
    with 0%nat in H.
  cbn [count_level List.filter fst level_eqb length]. lia.
Qed.

(** X13: a Gazetteer object is committed in one step: the run commits
    once for the PRAGMA statements and once for each imported object,
    and not at all for an object it skips. *)
Theorem gaz_one_commit_per_object json_path objects c :
  let st := json_import_gaz env json_path objects db_path c in
  Z.of_nat (length (commits (st_con st)))
  = Z.of_nat (length (commits c)) + 1 + st_n st.
Proof.
  unfold json_import_gaz. cbn zeta. cbn [log st_con st_n st_log].
  match goal with |- context [fold_left _ _ ?s] =>
    destruct (gaz_run_counts objects s) as [_ H] end.
  cbn [st_con st_n db_open db_pragma commit commits length] in H. lia.
Qed.

Lemma import_gaz_obj_no_id st o :
  has_gazId env o = false ->
  st_con (import_gaz_obj env db_path st o) = st_con st /\
  st_n (import_gaz_obj env db_path st o) = st_n st.
Proof.
  intros H.
  destruct (import_gaz_obj_cases st o)
    as [(_ & Hc & Hn & _)|[(g & _ & T & _)|(g & d & _ & T & _)]];
    [now split | congruence | congruence].
Qed.

Lemma import_gaz_obj_store st1 st2 o :
  st_con st1 = st_con st2 -> st_n st1 = st_n st2 ->
  st_con (import_gaz_obj env db_path st1 o)
  = st_con (import_gaz_obj env db_path st2 o) /\
  st_n (import_gaz_obj env db_path st1 o)
  = st_n (import_gaz_obj env db_path st2 o).
Proof.
  intros Hc Hn. unfold import_gaz_obj.
  destruct (get_gazId env o) as [gaz_id|]; [|now split].
  destruct (negb (PyStr.truthy (Some gaz_id))); [now split|].
  cbn zeta. cbn [log st_con st_n st_log]. rewrite Hc, Hn.
  destruct (db_import_gaz env (st_con st2) (dumps env o)) as [c'|[]];
    [|now split].
  destruct ((st_n st2 + 1) mod 10000 =? 0); now split.
Qed.

(** X14: objects without a [gazId], or with an empty one, have no effect
    on the store and on the count: the run ends with the same tables,
    the same commits and the same count as a run over the dump without
    them. *)
Theorem gaz_objects_without_id_have_no_effect json_path objects c :
  let st := json_import_gaz env json_path objects db_path c in
  let st' := json_import_gaz env json_path
               (List.filter (has_gazId env) objects) db_path c in
  st_con st = st_con st' /\ st_n st = st_n st'.
Proof.
  unfold json_import_gaz. cbn zeta. cbn [log st_con st_n].
  match goal with |- context [fold_left _ _ ?s] =>
    assert (G : forall st1 st2, st_con st1 = st_con st2 -> st_n st1 = st_n st2 ->
              st_con (fold_left (import_gaz_obj env db_path) objects st1)
              = st_con (fold_left (import_gaz_obj env db_path)
                          (List.filter (has_gazId env) objects) st2) /\
              st_n (fold_left (import_gaz_obj env db_path) objects st1)
              = st_n (fold_left (import_gaz_obj env db_path)
                        (List.filter (has_gazId env) objects) st2));
    [|now apply G] end.
  induction objects as [|o objects IH]; intros st1 st2 Hc Hn;
    cbn [fold_left List.filter]; [now split|].
  destruct (has_gazId env o) eqn:T; cbn [fold_left].
  - destruct (import_gaz_obj_store st1 st2 o Hc Hn). now apply IH.
  - destruct (import_gaz_obj_no_id st1 o T). apply IH; congruence.
Qed.

End Gaz.

End GazFacts.

(** ** export.py *)

Module ExporterFacts.
Import Sqlite Fuzzy FuzzyFacts Exporter.

Local Open Scope Q_scope.

Lemma meta_joined_score e r :
  In r (meta_joined e) ->
  exists f, In f (fuzzy_meta (tables e)) /\ me_Threshold r = fz_jarow f.
Proof.
  unfold meta_joined. intros H.
  apply in_flat_map in H as (f & Hf & H). exists f. split; [exact Hf|].
  apply in_flat_map in H as (dm & _ & H).
  destruct (dm_id dm =? fz_dnb f)%Z; [|contradiction].
  apply in_flat_map in H as (gm & _ & H).
  destruct (gm_id gm =? fz_gaz f)%Z; [|contradiction].
  apply in_flat_map in H as (gi & _ & H).
  destruct (String.eqb _ _); [|contradiction].
  now destruct H as [<-|[]].
Qed.

Lemma names_joined_score e r :
  In r (names_joined e) ->
  exists f, In f (fuzzy_name (tables e)) /\ ne_Threshold r = fz_jarow f.
Proof.
  unfold names_joined. intros H.
  apply in_flat_map in H as (f & Hf & H). exists f. split; [exact Hf|].
  apply in_flat_map in H as (dn & _ & H).
  destruct (dn_id dn =? fz_dnb f)%Z; [|contradiction].
  apply in_flat_map in H as (gn & _ & H).
  destruct (gn_id gn =? fz_gaz f)%Z; [|contradiction].
  apply in_flat_map in H as (dm & _ & H).
  destruct (match dn_dnb_meta_id dn with Some i => _ | None => _ end);
    [|contradiction].
  apply in_flat_map in H as (gm & _ & H).
  destruct (String.eqb (gm_gaz_id gm) _); [|contradiction].
  apply in_flat_map in H as (gi & _ & H).
  destruct (String.eqb _ _); [|contradiction].
  now destruct H as [<-|[]].
Qed.

Lemma filter_all {A} (p : A -> bool) (l : list A) :
  (forall x, In x l -> p x = true) -> List.filter p l = l.
Proof.
  induction l as [|x l IH]; intros H; cbn [List.filter]; [reflexivity|].
  rewrite (H x (or_introl eq_refl)). f_equal. apply IH. intros y Hy.
  apply H. now right.
Qed.

(** X15: at the threshold of the matching run the two exports differ.
    Take a threshold whose six-decimal text for the export says the same
    number as the five-decimal text for the matchers, and let [d] be the
    binary64 number that SQLite reads from it.  After [db_init] and both
    matchers, the meta export passes every stored candidate that joins;
    the names export passes the joined candidates except those whose
    score is exactly [d], which the names matcher has stored. *)
Theorem export_at_matching_threshold ext c t gnd :
  format_f t == format_5f t ->
  let d := to_double (format_5f t) in
  let c' := matching_steps ext {| meta := true; names := true; threshold := t |} c in
  let e := {| tables := store c'; gaz_ident_gnd := gnd |} in
  meta_where_rows e t = meta_joined e /\
  (forall r, In r (names_where_rows e t) <->
             In r (names_joined e) /\ ~ ne_Threshold r == d).
Proof.
  intros Hf d c' e.
  assert (Hm : forall f, In f (fuzzy_meta (tables e)) -> d <= fz_jarow f).
  { intros f Hf'. subst e c'. cbn [tables] in Hf'.
    rewrite matching_steps_store in Hf'. cbn in Hf'.
    apply in_query_meta in Hf' as (dr & gr & x & _ & _ & _ & L & ->).
    exact L. }
  assert (Hn : forall f, In f (fuzzy_name (tables e)) -> d <= fz_jarow f).
  { intros f Hf'. subst e c'. cbn [tables] in Hf'.
    rewrite matching_steps_store in Hf'. cbn in Hf'.
    apply in_query_names in Hf' as (dr & gr & x & _ & _ & _ & L & ->).
    exact L. }
  assert (E6 : to_double (format_f t) == d) by now apply to_double_compat.
  split.
  - apply filter_all. intros r Hr.
    destruct (meta_joined_score e r Hr) as (f & Hf' & ->).
    apply Qle_bool_iff. rewrite E6. now apply Hm.
  - intros r. unfold names_where_rows. rewrite filter_In. split.
    + intros [Hr Hw]. split; [exact Hr|]. intros Eq.
      apply negb_true_iff in Hw.
      assert (L : Qle_bool (ne_Threshold r) (to_double (format_f t)) = true).
      { apply Qle_bool_iff. rewrite E6, Eq. apply Qle_refl. }
      congruence.
    + intros [Hr Hne]. split; [exact Hr|].
      destruct (names_joined_score e r Hr) as (f & Hf' & Ef).
      pose proof (Hn f Hf') as Hge. rewrite <- Ef in Hge.
      apply negb_true_iff. destruct (Qle_bool _ _) eqn:L; [|reflexivity].
      apply Qle_bool_iff in L. rewrite E6 in L. exfalso. apply Hne. lra.
Qed.

Lemma export_at_matching_threshold_witness :
  let e := {| tables := store (matching_steps (scoring_ext float_0_8)
                                 {| meta := true; names := true;
                                    threshold := float_0_8 |}
                                 (connect sample_db));
              gaz_ident_gnd := [{| gi_gaz_id := "2181496";
                                   gi_gnd_id := Some "4066009-6" |}] |} in
  format_f float_0_8 == format_5f float_0_8 /\
  to_double (format_5f float_0_8) == float_0_8 /\
  length (meta_where_rows e float_0_8) = 1%nat /\
  length (names_joined e) = 1%nat /\
  names_where_rows e float_0_8 = [].
Proof.
  intros e.
  assert (H : format_f float_0_8 == format_5f float_0_8)
    by (vm_compute; reflexivity).
  destruct (export_at_matching_threshold (scoring_ext float_0_8)
              (connect sample_db) float_0_8
              [{| gi_gaz_id := "2181496";
                  gi_gnd_id := Some "4066009-6" |}] H) as [Hm Hn].
  fold e in Hm, Hn. split; [exact H|].
  split; [vm_compute; reflexivity|].
  split; [rewrite Hm; vm_compute; reflexivity|].
  split; vm_compute; reflexivity.
Defined.

End ExporterFacts.
(** ** import.py: the commits of a run *)

Module ImporterCommits.
Import Sqlite Importer ImporterFacts ImporterRun.

Lemma import_obj_commits db_path old_auth st o :
  let st' := import_obj db_path old_auth st o in
  exists new,
    commits (st_con st') = new ++ commits (st_con st) /\
    st_n st' - st_n st <= Z.of_nat (length new)
    <= (if old_auth then 3 else 2) * (st_n st' - st_n st).
Proof.
  cbn zeta.
  destruct (import_obj_dichotomy st o) as [Hs|(obj_id & Hid & Hacc & Hnew)].
  - destruct (import_obj_skip_state db_path old_auth st o Hs) as (-> & -> & _).
    exists []. split; [reflexivity|]. cbn [length]. destruct old_auth; lia.
  - destruct (import_obj_new_state db_path old_auth st o obj_id Hid Hacc Hnew)
      as (_ & _ & _ & _ & _ & _ & _ & _ & Hn & _).
    rewrite Hn. rewrite (import_obj_accepted _ _ _ _ _ Hid Hacc). cbn zeta.
    set (dnb_id := strip dnb_ident obj_id).
    set (owl := owl_scan (get_list o owl_key)).
    set (vn := collect_values dnb_id (get_list o var_names_key)).
    set (oa := if old_auth then _ else None).
    assert (Hex := existsb_dnb_id_false _ _ Hnew).
    destruct (insert_dnb_meta dnb_id (get_pref_name (get_list o pref_name_key))
                (owl_geonames owl) (owl_gnd owl) (owl_loc owl)
                (owl_viaf owl) (owl_wikidata owl) (store (st_con st)))
      as [d1|e] eqn:Hins.
    2:{ unfold insert_dnb_meta in Hins. fold dnb_id in Hex.
        rewrite Hex in Hins. discriminate. }
    destruct (db_import_dnb_ok (st_con st) dnb_id _ _ _ _ _ _ vn oa _ Hins)
      as (nrows & arows & _ & _ & Heq).
    cbn [log st_con st_n st_log]. rewrite Heq.
    match goal with |- context [commits (st_con (if ?b then _ else _))] =>
      destruct b end; cbn [log st_con commits];
      (eexists ((if runs oa then [_] else []) ++ (if runs vn then [_] else []) ++ [_]);
       split; [now rewrite <- !app_assoc|]);
      rewrite !length_app;
      assert (Ho : old_auth = false -> runs oa = false)
        by (intros ->; reflexivity);
      destruct (runs vn), old_auth, (runs oa); cbn [length];
      try (specialize (Ho eq_refl); discriminate Ho); lia.
Qed.

(** X16: an imported record costs between one and three commits, and at
    most two when the run does not read old authority numbers; a skipped
    object costs none.  A run therefore adds its opening commit and
    between [n] and [3 n] more, [n] being the final count. *)
Theorem commits_per_record json_path objects db_path c old_auth :
  let st := json_import_dnb json_path objects db_path c old_auth in
  exists new,
    commits (st_con st) = new ++ store c :: commits c /\
    st_n st <= Z.of_nat (length new)
    <= (if old_auth then 3 else 2) * st_n st.
Proof.
  unfold json_import_dnb. cbn zeta. cbn [log st_con st_n].
  match goal with |- context [fold_left _ _ ?s] =>
    assert (G : forall st0,
              exists new,
                commits (st_con (fold_left (import_obj db_path old_auth) objects st0))
                = new ++ commits (st_con st0) /\
                st_n (fold_left (import_obj db_path old_auth) objects st0) - st_n st0
                <= Z.of_nat (length new)
                <= (if old_auth then 3 else 2)
                   * (st_n (fold_left (import_obj db_path old_auth) objects st0)
                      - st_n st0));
    [|destruct (G s) as (new & Hc & Hb); exists new;
      cbn [st_con st_n db_open db_pragma commit commits] in Hc, Hb;
      split; [exact Hc | rewrite !Z.sub_0_r in Hb; exact Hb]] end.
  induction objects as [|o objects IH]; intro st0; cbn [fold_left].
  - exists []. split; [reflexivity|]. cbn [length]. destruct old_auth; lia.
  - destruct (IH (import_obj db_path old_auth st0 o)) as (new2 & Hc2 & Hb2).
    destruct (import_obj_commits db_path old_auth st0 o) as (new1 & Hc1 & Hb1).
    exists (new2 ++ new1). split; [now rewrite Hc2, Hc1, app_assoc|].
    rewrite length_app. destruct old_auth; lia.
Qed.

End ImporterCommits.

(** ** Sample runs *)

Module Samples.
Import Sqlite Importer GazImporter.

Example gaz_run_sample :
  let st := json_import_gaz sample_env "gaz.json"
              [(Some "2181496", "a"); (None, "b"); (Some "", "c");
               (Some "2181496", "a")]
              "db.sqlite" (connect empty_db) in
  st_n st = 1 /\
  map gm_gaz_id (gaz_meta (store (st_con st))) = ["a"] /\
  count_level WARNING (st_log st) = 3%nat.
Proof. repeat split. Qed.

Example dnb_run_sample :
  let st := json_import_dnb "dnb.json" [sample_obj; sample_no_id; sample_obj]
              "db.sqlite" (connect empty_db) true in
  st_n st = 1 /\
  count_level WARNING (st_log st) = 1%nat /\
  length (commits (st_con st)) = 4%nat.
Proof. repeat split. Qed.

End Samples.
